(** * configmap-reload: a shallow embedding of [configmap-reload.go]

    The program watches config map volume directories, rewrites the files
    that match a glob into a destination directory (substituting environment
    variables by name) and then calls webhooks with a bounded retry loop.

    Go values are modelled as follows.
    - [string] is a Go string (a sequence of 8-bit characters); [[]byte] is
      [list byte].
    - [int] is a [Z] of the 64-bit target; arithmetic that can leave the range
      goes through [wrap64] (two's complement wrap-around).
    - [fsnotify.Op] is a [uint32] bit mask, a [Z] combined with [Z.land].
    - Go maps are [gmap]s; the order in which [range] visits a map is not
      specified by the language and is an explicit parameter.
    - Calls into the operating system and the network are answered by
      oracles: the directory tree a walk observes, the replies of the
      webhook server, the results of creating and feeding the watcher.
    - The effects of the program (log lines, sleeps, file writes, HTTP
      requests, watches, exit) are recorded in a trace of [action]s; the
      prometheus registry is an explicit record of maps. *)

From stdpp Require Import base option list gmap fin_maps strings pretty.
From Stdlib Require Import ZArith Lia Ascii.
From Stdlib.Strings Require Import Byte.

#[local] Open Scope Z_scope.

#[global] Instance byte_eq_dec : EqDecision byte := Byte.byte_eq_dec.

(** [[]byte(s)] *)
Definition bytes_of (s : string) : list byte := String.list_byte_of_string s.

(** ** Machine integers *)

(** Go's [int] on the 64-bit targets: the representative of [z] in
    [-2^63, 2^63). *)
Definition wrap64 (z : Z) : Z := (z + 2 ^ 63) mod 2 ^ 64 - 2 ^ 63.

(** The values of an [int]. *)
Definition inInt (z : Z) : Prop := - 2 ^ 63 <= z < 2 ^ 63.

(** ** package strings *)
Module GoStrings.

(** [strings.HasPrefix(s, prefix)] *)
Definition HasPrefix (s prefix : string) : bool := String.prefix prefix s.

(** [strings.SplitN(s, sep, 2)] for a non-empty [sep]: [s] itself when
    [sep] does not occur in it, otherwise what is before and what is after
    the first occurrence. *)
Definition SplitN2 (s sep : string) : list string :=
  match String.index 0 sep s with
  | None => [s]
  | Some i =>
      [String.substring 0 i s;
       String.substring (i + String.length sep)
                        (String.length s - (i + String.length sep)) s]
  end.

End GoStrings.

(** ** package unicode/utf8 *)
Module Utf8.

Definition cont (lo hi : N) (b : byte) : bool :=
  ((lo <=? Byte.to_N b) && (Byte.to_N b <=? hi))%N.

(** The width [utf8.DecodeRune] returns on a non-empty slice: the length of
    the well-formed encoding the slice starts with, and 1 when it starts
    with none (an invalid or a truncated encoding decodes as [RuneError]
    of width 1). *)
Definition runeWidth (p : list byte) : nat :=
  match p with
  | [] => 0%nat
  | p0 :: rest =>
      let x := Byte.to_N p0 in
      (* size and the range accepted for the second byte, by first byte *)
      let class : option (nat * N * N) :=
        if (x <? 0xC2)%N then None
        else if (x <=? 0xDF)%N then Some (2%nat, 0x80, 0xBF)%N
        else if (x =? 0xE0)%N then Some (3%nat, 0xA0, 0xBF)%N
        else if (x =? 0xED)%N then Some (3%nat, 0x80, 0x9F)%N
        else if (x <=? 0xEF)%N then Some (3%nat, 0x80, 0xBF)%N
        else if (x =? 0xF0)%N then Some (4%nat, 0x90, 0xBF)%N
        else if (x <=? 0xF3)%N then Some (4%nat, 0x80, 0xBF)%N
        else if (x =? 0xF4)%N then Some (4%nat, 0x80, 0x8F)%N
        else None in
      match class with
      | None => 1%nat
      | Some (sz, lo, hi) =>
          match rest with
          | b1 :: rest1 =>
              if negb (cont lo hi b1) then 1%nat
              else if (sz <=? 2)%nat then 2%nat
              else match rest1 with
                   | b2 :: rest2 =>
                       if negb (cont 0x80 0xBF b2) then 1%nat
                       else if (sz <=? 3)%nat then 3%nat
                       else match rest2 with
                            | b3 :: _ =>
                                if negb (cont 0x80 0xBF b3) then 1%nat
                                else 4%nat
                            | [] => 1%nat
                            end
                   | [] => 1%nat
                   end
          | [] => 1%nat
          end
      end
  end.

End Utf8.

(** ** package bytes *)
Module GoBytes.

(** [bytes.HasPrefix(s, prefix)] *)
Fixpoint HasPrefix (s prefix : list byte) : bool :=
  match prefix, s with
  | [], _ => true
  | _ :: _, [] => false
  | p :: prefix', c :: s' => bool_decide (p = c) && HasPrefix s' prefix'
  end.

(** [bytes.Index(s, sep)]: the index of the first occurrence, [None]
    for Go's -1. *)
Fixpoint Index (s sep : list byte) : option nat :=
  if HasPrefix s sep then Some 0%nat
  else match s with
       | [] => None
       | _ :: s' => S <$> Index s' sep
       end.

(** The scan of [bytes.Replace] for a non-empty [old]: [skip] counts the
    bytes of the occurrence found last that are still to be passed over. *)
Fixpoint replaceFrom (old new : list byte) (skip : nat) (s : list byte)
  : list byte :=
  match s with
  | [] => []
  | c :: s' =>
      match skip with
      | S k => replaceFrom old new k s'
      | O =>
          if HasPrefix s old
          then new ++ replaceFrom old new (length old - 1) s'
          else c :: replaceFrom old new 0 s'
      end
  end.

(** [bytes.Replace] for an empty [old]: [new] goes in front of every
    UTF-8 sequence and after the last one. *)
Fixpoint spliceRunes (new : list byte) (skip : nat) (s : list byte)
  : list byte :=
  match s with
  | [] => new
  | c :: s' =>
      match skip with
      | S k => c :: spliceRunes new k s'
      | O => new ++ c :: spliceRunes new (Utf8.runeWidth s - 1) s'
      end
  end.

(** [bytes.Replace(s, old, new, -1)]: every non-overlapping occurrence of
    [old], found from the left, is replaced by [new]. *)
Definition Replace (s old new : list byte) : list byte :=
  match old with
  | [] => spliceRunes new 0 s
  | _ :: _ => replaceFrom old new 0 s
  end.

End GoBytes.

(** ** package path/filepath (Unix) *)
Module Filepath.

Definition isPathSeparator (c : ascii) : bool := bool_decide (c = "/"%char).

Fixpoint dropSeparators (l : list ascii) : list ascii :=
  match l with
  | c :: l' => if isPathSeparator c then dropSeparators l' else l
  | [] => []
  end.

Fixpoint takeElement (l : list ascii) : list ascii :=
  match l with
  | c :: l' => if isPathSeparator c then [] else c :: takeElement l'
  | [] => []
  end.

(** [filepath.Base(path)]: the last element of the path, trailing
    separators removed first; "." for the empty path and "/" for a path
    of separators only. The loops of the source run from the end of the
    string, here over the reversed characters. *)
Definition Base (path : string) : string :=
  if bool_decide (path = "") then "."
  else
    let stripped := dropSeparators (rev (String.list_ascii_of_string path)) in
    let last := rev (takeElement stripped) in
    match last with
    | [] => "/"
    | _ :: _ => String.string_of_list_ascii last
    end.

End Filepath.

(** ** package encoding/base64 *)
Module Base64.

Definition alphabet : list ascii :=
  String.list_ascii_of_string
    "ABCDEFGHIJKLMNOPQRSTUVWXYZabcdefghijklmnopqrstuvwxyz0123456789+/".

Definition digit (n : Z) : ascii :=
  default "="%char (alphabet !! Z.to_nat n).

(** [base64.StdEncoding.EncodeToString]: three bytes make four digits of
    six bits; a last group of one or two bytes is padded with "=". *)
Fixpoint encode (l : list byte) : list ascii :=
  match l with
  | [] => []
  | [a] =>
      let v := Z.of_N (Byte.to_N a) ≪ 16 in
      [digit (Z.land (v ≫ 18) 63); digit (Z.land (v ≫ 12) 63);
       "="%char; "="%char]
  | [a; b] =>
      let v := Z.lor (Z.of_N (Byte.to_N a) ≪ 16) (Z.of_N (Byte.to_N b) ≪ 8) in
      [digit (Z.land (v ≫ 18) 63); digit (Z.land (v ≫ 12) 63);
       digit (Z.land (v ≫ 6) 63); "="%char]
  | a :: b :: c :: rest =>
      let v := Z.lor (Z.lor (Z.of_N (Byte.to_N a) ≪ 16)
                            (Z.of_N (Byte.to_N b) ≪ 8))
                     (Z.of_N (Byte.to_N c)) in
      digit (Z.land (v ≫ 18) 63) :: digit (Z.land (v ≫ 12) 63) ::
      digit (Z.land (v ≫ 6) 63) :: digit (Z.land v 63) :: encode rest
  end.

Definition EncodeToString (s : string) : string :=
  String.string_of_list_ascii (encode (bytes_of s)).

End Base64.

(** ** package fsnotify *)
Module Fsnotify.

(** [type Op uint32], the bits [1 << iota]. *)
Definition Create : Z := 1.
Definition Write : Z := 2.
Definition Remove : Z := 4.
Definition Rename : Z := 8.
Definition Chmod : Z := 16.

Record Event := { Name : string; Op : Z }.

End Fsnotify.

(** ** The event filter *)

Definition isValidEvent (event : Fsnotify.Event) : bool :=
  if negb (Z.land (Fsnotify.Op event) Fsnotify.Create =? Fsnotify.Create)
  then false
  else if negb (bool_decide (Filepath.Base (Fsnotify.Name event) = "..data"))
  then false
  else true.

(** ** Flags *)

(** [url.Userinfo]: [Password()] returns the pair of the last two fields. *)
Record Userinfo := {
  Username : string;
  Password : string;
  PasswordSet : bool;
}.

(** [*url.URL], as far as the program looks at it: what [String()] returns
    and the [User] field ([nil] is [None]). *)
Record URL := {
  URLString : string;
  User : option Userinfo;
}.

(** The package variables set by [flag.Parse]. *)
Record Flags := {
  volumeDirs : list string;
  webhook : list URL;
  webhookMethod : string;
  webhookStatusCode : Z;
  webhookRetries : Z;
  listenAddress : string;
  metricPath : string;
  filePattern : string;
  writeToPattern : string;
  envPrefix : string;
  initSleepTime : Z;
  runsAsInitContianer : bool;
}.

(** ** Errors, effects and oracles *)

Inductive error :=
| SkipDir                       (* filepath.SkipDir *)
| ErrBadPattern                 (* filepath.ErrBadPattern *)
| OsError (msg : string).       (* an error of a system call *)

#[global] Instance error_eq_dec : EqDecision error.
Proof. solve_decision. Defined.

(** What a Go function of result type [error] does: it returns ([nil] is
    [None]) or it panics. *)
Inductive result :=
| Ret (err : option error)
| Panic.

(** [http.Request]: method, URL string, header. *)
Record Request := {
  Method : string;
  ReqURL : string;
  Header : gmap string (list string);
}.

Inductive logarg :=
| LStr (s : string)
| LInt (z : Z)
| LBool (b : bool)
| LErr (e : error).

(** Effects, in the order in which they happen. [ALog] is a call of
    [log.Printf] (format and operands) or of [log.Println] (first operand
    and the others). Durations are in nanoseconds. *)
Inductive action :=
| ALog (format : string) (args : list logarg)
| AUsage
| ASleep (d : Z)
| AWriteFile (filename : string) (data : list byte) (perm : Z) (err : option string)  (* perm 438 is 0666 *)
| ANewWatcher
| AGo
| AWatcherAdd (name : string)
| ADo (req : Request)
| AListenAndServe (addr path : string)
| AExit (code : Z).

(** [os.FileInfo] *)
Record FileInfo := {
  fiName : string;
  fiIsDir : bool;
}.

(** What reading the entry and writing its copy answer at the time the walk
    visits it: [ioutil.ReadFile(path)] and
    [ioutil.WriteFile(filename, data, perm)]. *)
Record FileIO := {
  ReadFile : string + list byte;
  WriteFile : string -> list byte -> option string;
}.

(** The tree a walk observes below its root: for every name what [Lstat]
    answers (an entry that is no directory, a directory with the result of
    reading its names, or an error), in the order in which the names are
    read. *)
#[local] Set Warnings "-register-all".
Inductive entry :=
| File (name : string) (io : FileIO)
| Dir (name : string) (readdir_err : option string) (children : list entry)
| NoStat (name : string) (err : string).

Definition entryName (e : entry) : string :=
  match e with
  | File name _ | Dir name _ _ | NoStat name _ => name
  end.

Definition entryIsDir (e : entry) : bool :=
  match e with
  | Dir _ _ _ => true
  | _ => false
  end.

(** A directory cannot be read as a file. *)
Definition dirIO : FileIO :=
  {| ReadFile := inl "is a directory";
     WriteFile := fun _ _ => Some "is a directory" |}.

(** Library functions that are parameters of the model, and the one choice
    the language leaves open. *)
Class GoLib := {
  (** [filepath.Join(dir, name)] *)
  Join : string -> string -> string;
  (** [filepath.Match(pattern, name)]; [None] is [(false, ErrBadPattern)] *)
  Match : string -> string -> option bool;
  (** the error of [http.NewRequest(method, url, nil)], if any *)
  newRequestErr : string -> string -> option string;
  (** the order in which [range] visits the map, for the file at the path *)
  rangeMap : string -> gmap string string -> list (string * string);
  rangeMap_perm : forall path m, rangeMap path m ≡ₚ map_to_list m;
}.

(** The surroundings of one run of the process. *)
Record World := {
  (** [os.Environ()] *)
  Environ : list string;
  (** the tree the n-th call of [filepath.Walk] finds at its root *)
  Lstat : nat -> string -> entry;
  (** [http.DefaultClient.Do] for the n-th request of the process: the time
      it takes, and a transport error or the status code of the response *)
  Do : nat -> Request -> Z * (string + Z);
  (** the error of [fsnotify.NewWatcher()], if any *)
  NewWatcherErr : option string;
  (** the error of [watcher.Add(name)], if any *)
  WatcherAddErr : string -> option string;
  (** the error with which [http.ListenAndServe] returns, if it returns *)
  ListenAndServeErr : option string;
}.

(** ** The metrics registry *)

(** The collectors, by label values. Gauges hold 1.0 and 0.0 as 1 and 0 and
    a duration as nanoseconds; counters hold how often [Inc] was called. *)
Record Metrics := {
  lastReloadError : gmap string Z;
  requestDuration : gmap string Z;
  successReloads : gmap string nat;
  requestErrorsByReason : gmap (string * string) nat;
  watcherErrors : nat;
  requestsByStatusCode : gmap (string * string) nat;
}.

Definition noMetrics : Metrics :=
  {| lastReloadError := ∅; requestDuration := ∅; successReloads := ∅;
     requestErrorsByReason := ∅; watcherErrors := 0;
     requestsByStatusCode := ∅ |}.

(** [c.WithLabelValues(k).Inc()] *)
Definition Inc `{Countable K} (k : K) (c : gmap K nat) : gmap K nat :=
  <[k := S (default 0%nat (c !! k))]> c.

Definition setFailureMetrics (h reason : string) (m : Metrics) : Metrics :=
  {| lastReloadError := <[h := 1]> (lastReloadError m);
     requestDuration := requestDuration m;
     successReloads := successReloads m;
     requestErrorsByReason := Inc (h, reason) (requestErrorsByReason m);
     watcherErrors := watcherErrors m;
     requestsByStatusCode := requestsByStatusCode m |}.

(** [since] is [time.Since(begun)]. *)
Definition setSuccessMetrics (h : string) (since : Z) (m : Metrics) : Metrics :=
  {| lastReloadError := <[h := 0]> (lastReloadError m);
     requestDuration := <[h := since]> (requestDuration m);
     successReloads := Inc h (successReloads m);
     requestErrorsByReason := requestErrorsByReason m;
     watcherErrors := watcherErrors m;
     requestsByStatusCode := requestsByStatusCode m |}.

(** ** The state of the process *)

Record State := {
  metrics : Metrics;
  trace : list action;
  (** the clock, in nanoseconds *)
  now : Z;
  (** the number of HTTP requests made *)
  nreq : nat;
  (** the number of calls of [filepath.Walk] made *)
  nwalk : nat;
  (** the names added to the watcher *)
  watches : list string;
}.

Definition initState : State :=
  {| metrics := noMetrics; trace := []; now := 0; nreq := 0; nwalk := 0;
     watches := [] |}.

Definition emit (l : list action) (st : State) : State :=
  {| metrics := metrics st; trace := trace st ++ l; now := now st;
     nreq := nreq st; nwalk := nwalk st; watches := watches st |}.

Definition withMetrics (f : Metrics -> Metrics) (st : State) : State :=
  {| metrics := f (metrics st); trace := trace st; now := now st;
     nreq := nreq st; nwalk := nwalk st; watches := watches st |}.

(** [time.Sleep(d)]: returns at once when [d] is not positive. *)
Definition Sleep (d : Z) (st : State) : State :=
  {| metrics := metrics st; trace := trace st ++ [ASleep d];
     now := now st + Z.max 0 d;
     nreq := nreq st; nwalk := nwalk st; watches := watches st |}.

(** One request sent: [took] nanoseconds pass. *)
Definition sent (req : Request) (took : Z) (st : State) : State :=
  {| metrics := metrics st; trace := trace st ++ [ADo req];
     now := now st + took;
     nreq := S (nreq st); nwalk := nwalk st; watches := watches st |}.

Definition walked (l : list action) (st : State) : State :=
  {| metrics := metrics st; trace := trace st ++ l; now := now st;
     nreq := nreq st; nwalk := S (nwalk st); watches := watches st |}.

(** [name] is now watched. *)
Definition watching (name : string) (st : State) : State :=
  {| metrics := metrics st; trace := trace st; now := now st;
     nreq := nreq st; nwalk := nwalk st; watches := watches st ++ [name] |}.

(** [time.Second] and [time.Duration(n) * time.Second] in [int64]
    nanoseconds. *)
Definition Second : Z := 1000000000.
Definition seconds (n : Z) : Z := wrap64 (n * Second).

(** ** The materializer *)

(** One round of the loop of [initEnvMap]; [None] is the panic of
    [pair[1]] on a slice of length 1. *)
Definition envStep (flags : Flags) (env : gmap string string) (e : string)
  : option (gmap string string) :=
  let pair := GoStrings.SplitN2 e "=" in
  key ← pair !! 0%nat;
  if GoStrings.HasPrefix key (envPrefix flags)
  then value ← pair !! 1%nat; Some (<[key := value]> env)
  else Some env.

Fixpoint envLoop (flags : Flags) (env : gmap string string) (l : list string)
  : option (gmap string string) :=
  match l with
  | [] => Some env
  | e :: l' => env' ← envStep flags env e; envLoop flags env' l'
  end.

Definition initEnvMap (flags : Flags) (w : World)
  : option (gmap string string) :=
  envLoop flags ∅ (Environ w).


(** The loop over [envMap] in [updateFile], in the order [l]. *)
Definition substitute (l : list (string * string)) (read : list byte)
  : list byte :=
  foldl (fun read kv => GoBytes.Replace read (bytes_of kv.1) (bytes_of kv.2))
        read l.

(** The type of the function [filepath.Walk] calls, with the answers of the
    file system for the entry as a further argument. *)
Definition WalkFunc : Type :=
  string -> option FileInfo -> option error -> FileIO -> result * list action.

Section Materializer.
Context `{GoLib}.
Variable flags : Flags.
Variable w : World.

Definition updateFile : WalkFunc := fun path fi err io =>
  match initEnvMap flags w with
  | None => (Panic, [])
  | Some envMap =>
      let l0 :=
        if bool_decide (size envMap = 0%nat)
        then [ALog "No environment variable with prefix %s found"
                   [LStr (envPrefix flags)]]
        else [] in
      match err with
      | Some e => (Ret (Some e), l0)
      | None =>
          match fi with
          | None => (Panic, l0)      (* a method call on a nil interface *)
          | Some fi =>
              if fiIsDir fi then
                if existsb (fun d => bool_decide (d = path)) (volumeDirs flags)
                then (Ret None, l0)
                else (Ret (Some SkipDir),
                      l0 ++ [ALog "is not file? %s " [LStr path]])
              else
                let m := Match (filePattern flags) (fiName fi) in
                let matched := default false m in
                let l1 := l0 ++ [ALog "Checking file %s mached %v"
                                      [LStr (fiName fi); LBool matched]] in
                match m with
                | None =>
                    (Ret (Some ErrBadPattern),
                     l1 ++ [ALog "Error Reading files from dir"
                                 [LErr ErrBadPattern]])
                | Some _ =>
                    if matched then
                      match ReadFile io with
                      | inl e =>
                          (Ret (Some (OsError e)),
                           l1 ++ [ALog ("Error reading file " +:+ path)
                                       [LErr (OsError e)]])
                      | inr read =>
                          let read := substitute (rangeMap path envMap) read in
                          let finalFilePath :=
                            Join (writeToPattern flags) (fiName fi) in
                          let l2 := l1 ++ [ALog "Updating file %v"
                                                [LStr finalFilePath]] in
                          match WriteFile io finalFilePath read with
                          | Some e =>
                              (Ret (Some (OsError e)),
                               l2 ++ [AWriteFile finalFilePath read 438 (Some e);
                                      ALog ("Unable to update file " +:+ path)
                                           [LErr (OsError e)]])
                          | None =>
                              (Ret None,
                               l2 ++ [AWriteFile finalFilePath read 438 None])
                          end
                      end
                    else (Ret None, l1)
                end
          end
      end
  end.

(** A file that cannot be read, or whose copy cannot be written: [msg] is
    the error of [ioutil.ReadFile], or that of [ioutil.WriteFile] on the
    contents after the substitution. *)
Definition fails (path name : string) (io : FileIO)
    (envMap : gmap string string) (msg : string) : Prop :=
  ReadFile io = inl msg
  \/ exists read,
      ReadFile io = inr read
      /\ WriteFile io (Join (writeToPattern flags) name)
                   (substitute (rangeMap path envMap) read) = Some msg.

(** *** [filepath.Walk] *)

Variable walkFn : WalkFunc.

(** Whether the loop of [walk] over the names of a directory returns the
    error [err] that came back for the entry [e]: [SkipDir] from a
    directory, or for a name [Lstat] failed on, lets it go on. *)
Definition stops (e : entry) (err : error) : bool :=
  match e with
  | File _ _ => true
  | Dir _ _ _ | NoStat _ _ => negb (bool_decide (err = SkipDir))
  end.

(** The loop of [walk] over the names of the directory at [path]; [rec]
    is [walk] itself. *)
Fixpoint walkNames (rec : string -> entry -> result * list action)
    (path : string) (l : list entry) : result * list action :=
  match l with
  | [] => (Ret None, [])
  | e :: l' =>
      let filename := Join path (entryName e) in
      let '(r, t) := rec filename e in
      match r with
      | Panic => (Panic, t)
      | Ret (Some err) =>
          if stops e err then (Ret (Some err), t)
          else let '(r', t') := walkNames rec path l' in (r', t ++ t')
      | Ret None =>
          let '(r', t') := walkNames rec path l' in (r', t ++ t')
      end
  end.

(** [walk(path, info, walkFn)], and for an entry [Lstat] failed on the
    call [walkFn(path, nil, err)] that [Walk] and the loop of [walk] make
    in its place. *)
Fixpoint walk (path : string) (e : entry) {struct e} : result * list action :=
  match e with
  | File name io =>
      walkFn path (Some {| fiName := name; fiIsDir := false |}) None io
  | NoStat name err =>
      walkFn path None (Some (OsError err)) dirIO
  | Dir name readdir_err children =>
      let '(r1, t1) :=
        walkFn path (Some {| fiName := name; fiIsDir := true |})
               (OsError <$> readdir_err) dirIO in
      match r1 with
      | Panic => (Panic, t1)
      | Ret err1 =>
          match readdir_err, err1 with
          | None, None =>
              let '(r, t) := walkNames walk path children in (r, t1 ++ t)
          | _, _ => (Ret err1, t1)
          end
      end
  end.

(** [filepath.Walk(root, walkFn)], [e] being what is found at [root]. *)
Definition Walk (root : string) (e : entry) : result * list action :=
  let '(r, t) := walk root e in
  match r with
  | Ret (Some SkipDir) => (Ret None, t)
  | _ => (r, t)
  end.

End Materializer.

(** ** package net/http, as far as the program uses it *)

(** [http.NewRequest(method, url, nil)]: an empty method means GET. *)
Definition NewRequest `{GoLib} (method url : string) : string + Request :=
  match newRequestErr method url with
  | Some e => inl e
  | None =>
      inr {| Method := if bool_decide (method = "") then "GET" else method;
             ReqURL := url;
             Header := ∅ |}
  end.

(** [req.SetBasicAuth(username, password)] *)
Definition SetBasicAuth (req : Request) (username password : string) : Request :=
  {| Method := Method req;
     ReqURL := ReqURL req;
     Header :=
       <["Authorization" :=
           ["Basic " +:+ Base64.EncodeToString (username +:+ ":" +:+ password)]]>
         (Header req) |}.

(** ** The reload pipeline *)

(** How a piece of the program ends: it goes on, the process exits, or the
    process dies of a panic. *)
Inductive outcome :=
| Continue
| Exit (code : Z)
| Crash.

Section Reload.
Context `{GoLib}.
Variable flags : Flags.
Variable w : World.

(** The loops [for _, d := range volumeDirs] of [main]; [msg] is the text
    logged in front of the directory. *)
Fixpoint walkVolumes (msg : string) (ds : list string) (st : State)
  : outcome * State :=
  match ds with
  | [] => (Continue, st)
  | d :: ds' =>
      let st := emit [ALog (msg +:+ d) []] st in
      let '(r, t) := Walk (updateFile flags w) d (Lstat w (nwalk st) d) in
      let st := walked t st in
      match r with
      | Panic => (Crash, st)
      | Ret (Some err) =>
          walkVolumes msg ds'
            (emit [ALog "Unable to patch files error:" [LErr err]] st)
      | Ret None => walkVolumes msg ds' st
      end
  end.

(** The request for the webhook [h] (lines 121-132): [inl] when it cannot
    be created. *)
Definition webhookRequest (h : URL) : string + Request :=
  match NewRequest (webhookMethod flags) (URLString h) with
  | inl err => inl err
  | inr req =>
      inr match User h with
          | Some userInfo =>
              if PasswordSet userInfo
              then SetBasicAuth req (Username userInfo) (Password userInfo)
              else req
          | None => req
          end
  end.

(** The steps of one round of the retry loop, as changes of the state. *)

Definition announce (retries : Z) (st : State) : State :=
  emit [ALog "performing webhook request (%d/%d)"
             [LInt retries; LInt (webhookRetries flags)]] st.

(** lines 139-143: [Do] returned an error *)
Definition transportFailed (h : URL) (err : string) (st : State) : State :=
  let st := withMetrics (setFailureMetrics (URLString h) "client_request_do") st in
  let st := emit [ALog "error:" [LErr (OsError err)]] st in
  Sleep (Second * 10) st.

(** line 146 *)
Definition countStatus (h : URL) (StatusCode : Z) (st : State) : State :=
  withMetrics (fun m =>
    {| lastReloadError := lastReloadError m;
       requestDuration := requestDuration m;
       successReloads := successReloads m;
       requestErrorsByReason := requestErrorsByReason m;
       watcherErrors := watcherErrors m;
       requestsByStatusCode :=
         Inc (URLString h, pretty StatusCode) (requestsByStatusCode m) |}) st.

(** lines 147-151: a response with another status code than expected *)
Definition responseRefused (h : URL) (StatusCode : Z) (st : State) : State :=
  let st := withMetrics (setFailureMetrics (URLString h) "client_response") st in
  let st := emit [ALog "error:"
                       [LStr "Received response code"; LInt StatusCode;
                        LStr ", expected"; LInt (webhookStatusCode flags)]] st in
  Sleep (Second * 10) st.

(** lines 154-156 *)
Definition reloaded (h : URL) (begun : Z) (st : State) : State :=
  let st := withMetrics (setSuccessMetrics (URLString h) (now st - begun)) st in
  emit [ALog "successfully triggered reload" []] st.

(** One round of the retry loop that does not succeed (lines 137-151), as
    a change of the state. *)
Definition failedRound (h : URL) (req : Request) (retries : Z) (st : State)
  : State :=
  let st := announce retries st in
  let '(took, resp) := Do w (nreq st) req in
  let st := sent req took st in
  match resp with
  | inl err => transportFailed h err st
  | inr StatusCode => responseRefused h StatusCode (countStatus h StatusCode st)
  end.

(** The retry loop (lines 136-158) for at most [fuel] rounds; the result
    is [successfulReloadWebhook] and the state, and [None] when the loop
    has not ended after [fuel] rounds. [begun] is the clock at the start
    of the work on [h]. *)
Fixpoint retryLoop (fuel : nat) (h : URL) (req : Request) (begun : Z)
    (retries : Z) (st : State) : option (bool * State) :=
  if retries =? 0 then Some (false, st)
  else
    match fuel with
    | O => None
    | S fuel' =>
        let st := announce retries st in
        let '(took, resp) := Do w (nreq st) req in
        let st := sent req took st in
        match resp with
        | inl err =>
            retryLoop fuel' h req begun (wrap64 (retries - 1))
                      (transportFailed h err st)
        | inr StatusCode =>
            let st := countStatus h StatusCode st in
            if negb (StatusCode =? webhookStatusCode flags) then
              retryLoop fuel' h req begun (wrap64 (retries - 1))
                        (responseRefused h StatusCode st)
            else Some (true, reloaded h begun st)
        end
    end.

(** lines 160-163 *)
Definition exhausted (h : URL) (st : State) : State :=
  let st := withMetrics (setFailureMetrics (URLString h) "retries_exhausted") st in
  emit [ALog "error:" [LStr "Webhook reload retries exhausted"]] st.

(** The body of the loop [for _, h := range webhook] (lines 120-163). *)
Definition notify (fuel : nat) (h : URL) (st : State) : option State :=
  let begun := now st in
  match webhookRequest h with
  | inl err =>
      let st := withMetrics
                  (setFailureMetrics (URLString h) "client_request_create") st in
      Some (emit [ALog "error:" [LErr (OsError err)]] st)
  | inr req =>
      '(successfulReloadWebhook, st) ←
        retryLoop fuel h req begun (webhookRetries flags) st;
      if negb successfulReloadWebhook then Some (exhausted h st) else Some st
  end.

Fixpoint notifyAll (fuel : nat) (hs : list URL) (st : State) : option State :=
  match hs with
  | [] => Some st
  | h :: hs' => st' ← notify fuel h st; notifyAll fuel hs' st'
  end.

(** What the watcher hands to the goroutine. *)
Inductive notification :=
| OnEvent (event : Fsnotify.Event)
| OnError (err : string).

(** One round of the loop of the goroutine (lines 105-169), the [select]
    having received [n]. *)
Definition handle (fuel : nat) (n : notification) (st : State)
  : option (outcome * State) :=
  match n with
  | OnEvent event =>
      if negb (isValidEvent event) then Some (Continue, st)
      else
        let '(o, st) := walkVolumes "config map updated" (volumeDirs flags) st in
        match o with
        | Continue => st' ← notifyAll fuel (webhook flags) st; Some (Continue, st')
        | _ => Some (o, st)
        end
  | OnError err =>
      let st := withMetrics (fun m =>
        {| lastReloadError := lastReloadError m;
           requestDuration := requestDuration m;
           successReloads := successReloads m;
           requestErrorsByReason := requestErrorsByReason m;
           watcherErrors := S (watcherErrors m);
           requestsByStatusCode := requestsByStatusCode m |}) st in
      Some (Continue, emit [ALog "error:" [LErr (OsError err)]] st)
  end.

Fixpoint eventLoop (fuel : nat) (ns : list notification) (st : State)
  : option (outcome * State) :=
  match ns with
  | [] => Some (Continue, st)
  | n :: ns' =>
      '(o, st') ← handle fuel n st;
      match o with
      | Continue => eventLoop fuel ns' st'
      | _ => Some (o, st')
      end
  end.

(** The loop of [main] that adds the directories to the watcher. *)
Fixpoint addWatches (ds : list string) (st : State) : outcome * State :=
  match ds with
  | [] => (Continue, st)
  | d :: ds' =>
      let st := emit [ALog "Watching directory: %q" [LStr d]; AWatcherAdd d] st in
      match WatcherAddErr w d with
      | Some err => (Exit 1, emit [ALog "" [LErr (OsError err)]; AExit 1] st)
      | None => addWatches ds' (watching d st)
      end
  end.

(** [main], the goroutine left out: [Continue] means that the process
    serves the metrics for good. *)
Definition main (st : State) : outcome * State :=
  if bool_decide (length (volumeDirs flags) < 1)%nat then
    (Exit 1, emit [ALog "Missing volume-dir" []; ALog "" []; AUsage; AExit 1] st)
  else if bool_decide (length (webhook flags) < 1)%nat then
    (Exit 1, emit [ALog "Missing webhook-url" []; ALog "" []; AUsage; AExit 1] st)
  else
    let st := emit [ANewWatcher] st in
    match NewWatcherErr w with
    | Some err => (Exit 1, emit [ALog "" [LErr (OsError err)]; AExit 1] st)
    | None =>
        let st := emit [AGo] st in
        let st := if runsAsInitContianer flags
                  then Sleep (seconds (initSleepTime flags)) st else st in
        let '(o, st) := walkVolumes "Pre config map updated" (volumeDirs flags) st in
        match o with
        | Continue =>
            if runsAsInitContianer flags then
              (Exit 0, emit [ALog "Running as init container" []; AExit 0] st)
            else
              let '(o, st) := addWatches (volumeDirs flags) st in
              match o with
              | Continue =>
                  let st := emit [AListenAndServe (listenAddress flags)
                                                  (metricPath flags)] st in
                  match ListenAndServeErr w with
                  | Some err =>
                      (Exit 1, emit [ALog "" [LErr (OsError err)]; AExit 1] st)
                  | None => (Continue, st)
                  end
              | _ => (o, st)
              end
        | _ => (o, st)
        end
    end.

(** The watcher reports on the names added to it: as long as none is
    added, neither of its channels delivers anything. *)
Definition delivered (st : State) (ns : list notification) : list notification :=
  match watches st with
  | [] => []
  | _ :: _ => ns
  end.

(** The process: [main], and the goroutine working on what the watcher
    delivers of [ns]. The goroutine is started before the first walk, but
    it receives nothing before a directory is added; its work is put
    after that of [main]. *)
Definition run (fuel : nat) (ns : list notification) : option (outcome * State) :=
  let '(o, st) := main initState in
  '(o', st') ← eventLoop fuel (delivered st ns) st;
  match o' with
  | Continue => Some (o, st')
  | _ => Some (o', st')
  end.

End Reload.

(** ** The flags that may be given several times *)

(** [Set(value)] of [volumeDirsFlag]: the flag afterwards and the error
    returned. *)
Definition volumeDirsFlag_Set (v : list string) (value : string)
  : list string * option string :=
  (v ++ [value], None).

(** [Set(value)] of [webhookFlag]; [Parse] is [url.Parse]. *)
Definition webhookFlag_Set (Parse : string -> string + URL) (v : list URL)
    (value : string) : list URL * option string :=
  match Parse value with
  | inl err => (v, Some ("invalid URL: " +:+ err))
  | inr u => (v ++ [u], None)
  end.

(** What [flag.Parse] does with the values given for such a flag, in the
    order of the command line: it calls [Set] for each one and gives up at
    the first error. *)
Fixpoint setEach {A : Type} (set : A -> string -> A * option string) (v : A)
    (values : list string) : A * option string :=
  match values with
  | [] => (v, None)
  | value :: values' =>
      let '(v', err) := set v value in
      match err with
      | Some e => (v', Some e)
      | None => setEach set v' values'
      end
  end.

(** ** The metrics server *)

Section Server.
(** [accepts mux pattern]: whether [http.Handle] registers [pattern] on a
    [ServeMux] that holds the patterns [mux]; otherwise it panics. *)
Variable accepts : list string -> string -> bool.
Variable w : World.

(** [serverMetrics(listenAddress, metricsPath)], the patterns [mux] being
    registered on [http.DefaultServeMux] before: [None] is a panic,
    [Some None] that the server serves for good, [Some (Some err)] that
    [http.ListenAndServe] has returned [err]. *)
Definition serverMetrics (listenAddress metricsPath : string) (mux : list string)
  : option (option string) * list action :=
  if negb (accepts mux metricsPath) then (None, [])
  else if negb (accepts (mux ++ [metricsPath]) "/") then (None, [])
  else (Some (ListenAndServeErr w), [AListenAndServe listenAddress metricsPath]).

End Server.

(** ** Readings of the metrics *)

(** [sameSeries u m m']: the series with the webhook label [u] are in
    [m'] what they are in [m]. *)
Definition sameSeries (u : string) (m m' : Metrics) : Prop :=
  lastReloadError m' !! u = lastReloadError m !! u
  /\ requestDuration m' !! u = requestDuration m !! u
  /\ successReloads m' !! u = successReloads m !! u
  /\ (forall reason,
        requestErrorsByReason m' !! (u, reason)
        = requestErrorsByReason m !! (u, reason))
  /\ (forall code,
        requestsByStatusCode m' !! (u, code)
        = requestsByStatusCode m !! (u, code)).

(** ** Readings of a trace *)

Definition isDo (a : action) : bool :=
  match a with ADo _ => true | _ => false end.

Definition isSleep (a : action) : bool :=
  match a with ASleep _ => true | _ => false end.

Definition isWrite (a : action) : bool :=
  match a with AWriteFile _ _ _ _ => true | _ => false end.

Definition isLog (a : action) : bool :=
  match a with ALog _ _ => true | _ => false end.

Definition isServe (a : action) : bool :=
  match a with AListenAndServe _ _ => true | _ => false end.

Definition isWatch (a : action) : bool :=
  match a with AWatcherAdd _ => true | _ => false end.

(** The requests and the sleeps of a trace. *)
Definition wire (t : list action) : list action :=
  List.filter (fun a => isDo a || isSleep a) t.

(** The number of HTTP requests of a trace. *)
Definition requests (t : list action) : nat :=
  length (List.filter isDo t).

(** Whether the n-th request of the process, if it is [req], is answered
    with the expected status code. *)
Definition succeeds (flags : Flags) (w : World) (req : Request) (n : nat) : bool :=
  match (Do w n req).2 with
  | inr StatusCode => StatusCode =? webhookStatusCode flags
  | inl _ => false
  end.

(** The time the requests number [n] to [n + k - 1] of the process take
    when they are [req]. *)
Fixpoint took (w : World) (req : Request) (n k : nat) : Z :=
  match k with
  | O => 0
  | S k' => (Do w n req).1 + took w req (S n) k'
  end.

(** The number of rounds the retry loop makes from [retries] on while no
    request succeeds: the value of [retries] read as an unsigned 64-bit
    number. *)
Definition rounds (retries : Z) : Z := retries mod 2 ^ 64.

(** ** Readings of a tree *)

(** [childOf path e dir name]: in the tree [e] found at [path], the
    directory at the path [dir] has an entry [name] that is no directory. *)
Inductive childOf `{GoLib} : string -> entry -> string -> string -> Prop :=
| child_here path dname children name io :
    File name io ∈ children ->
    childOf path (Dir dname None children) path name
| child_below path dname children c dir name :
    c ∈ children ->
    childOf (Join path (entryName c)) c dir name ->
    childOf path (Dir dname None children) dir name.

(** ** What replacing every occurrence means *)

(** [replacedAll old new s t]: [t] is [s] with the occurrences of [old]
    replaced by [new], where the occurrences are taken from the left, each
    one the first that starts after the end of the one before. *)
Inductive replacedAll (old new : list byte) : list byte -> list byte -> Prop :=
| replaced_none s :
    GoBytes.Index s old = None -> replacedAll old new s s
| replaced_first a b t :
    GoBytes.Index (a ++ old ++ b) old = Some (length a) ->
    replacedAll old new b t ->
    replacedAll old new (a ++ old ++ b) (a ++ new ++ t).


(** ** An instance for examples *)
Module Example.

(** A glob of literal characters, [*] and [?], as [filepath.Match]
    matches it. *)
Fixpoint glob (p s : list ascii) : bool :=
  match p with
  | [] => match s with [] => true | _ => false end
  | c :: p' =>
      if bool_decide (c = "*"%char) then
        (fix star (s : list ascii) : bool :=
           glob p' s ||
           match s with
           | [] => false
           | d :: s' => negb (bool_decide (d = "/"%char)) && star s'
           end) s
      else
        match s with
        | [] => false
        | d :: s' =>
            (if bool_decide (c = "?"%char)
             then negb (bool_decide (d = "/"%char))
             else bool_decide (c = d)) && glob p' s'
        end
  end.

#[export] Instance lib : GoLib := {|
  Join dir name := dir +:+ "/" +:+ name;
  Match pattern name :=
    Some (glob (String.list_ascii_of_string pattern)
               (String.list_ascii_of_string name));
  newRequestErr _ _ := None;
  rangeMap _ m := map_to_list m;
  rangeMap_perm _ _ := reflexivity _;
|}.

(** The values of the flags when only the directories and the webhooks
    are given. *)
Definition defaults (dirs : list string) (hooks : list URL) : Flags :=
  {| volumeDirs := dirs;
     webhook := hooks;
     webhookMethod := "POST";
     webhookStatusCode := 200;
     webhookRetries := 1;
     listenAddress := ":9533";
     metricPath := "/metrics";
     filePattern := "*.yml";
     writeToPattern := "/etc/prometheus-updated";
     envPrefix := "CFM_";
     initSleepTime := 10;
     runsAsInitContianer := false |}.

Definition withRetries (n : Z) (f : Flags) : Flags :=
  {| volumeDirs := volumeDirs f; webhook := webhook f;
     webhookMethod := webhookMethod f;
     webhookStatusCode := webhookStatusCode f;
     webhookRetries := n;
     listenAddress := listenAddress f; metricPath := metricPath f;
     filePattern := filePattern f; writeToPattern := writeToPattern f;
     envPrefix := envPrefix f; initSleepTime := initSleepTime f;
     runsAsInitContianer := runsAsInitContianer f |}.

Definition asInit (delay : Z) (f : Flags) : Flags :=
  {| volumeDirs := volumeDirs f; webhook := webhook f;
     webhookMethod := webhookMethod f;
     webhookStatusCode := webhookStatusCode f;
     webhookRetries := webhookRetries f;
     listenAddress := listenAddress f; metricPath := metricPath f;
     filePattern := filePattern f; writeToPattern := writeToPattern f;
     envPrefix := envPrefix f; initSleepTime := delay;
     runsAsInitContianer := true |}.

Definition plainFile (name content : string) : entry :=
  File name {| ReadFile := inr (bytes_of content);
               WriteFile := fun _ _ => None |}.

Definition unreadable (name : string) : entry :=
  File name {| ReadFile := inl "permission denied";
               WriteFile := fun _ _ => None |}.

(** A world with the environment [env], the tree [tree] at every root,
    and a server that answers every request with the status [code]. *)
Definition world (env : list string) (tree : entry) (code : Z) : World :=
  {| Environ := env;
     Lstat := fun _ _ => tree;
     Do := fun _ _ => (1000000, inr code);
     NewWatcherErr := None;
     WatcherAddErr := fun _ => None;
     ListenAndServeErr := None |}.

Definition hook : URL :=
  {| URLString := "http://127.0.0.1:9090/-/reload"; User := None |}.


Definition tree0 : entry := Dir "config" None [].

(** Three retries, and a server that always answers 500. *)
Definition flags3 : Flags := withRetries 3 (defaults ["/etc/config"] [hook]).
Definition w500 : World := world [] tree0 500.

(** The defaults (one retry), a retry count of -1, a webhook with
    credentials; a server that always answers 200. *)
Definition flags1 : Flags := defaults ["/etc/config"] [hook].
Definition flagsNeg : Flags := withRetries (-1) flags1.
Definition w200 : World := world [] tree0 200.

(** A directory with a file and a directory below it; a directory whose
    first file cannot be read. *)
Definition treeNested : entry :=
  Dir "config" None
      [plainFile "a.yml" "a: CFM_FOO";
       Dir "sub" None [plainFile "b.yml" "b: 1"]].
Definition treeBad : entry :=
  Dir "config" None [unreadable "a.yml"; plainFile "b.yml" "b: 1"].
Definition wBad : World := world [] treeBad 200.

(** Init container mode with a delay of two seconds; no webhook. *)
Definition flagsInit : Flags := asInit 2 flags1.
Definition flagsNoHook : Flags := asInit 2 (defaults ["/etc/config"] []).

(** One variable with the prefix and one without; two variables with the
    prefix, the value of each the name of the other. *)
Definition wFoo : World :=
  world ["HOME=/root"; "CFM_FOO=bar"] treeNested 200.


(** An environment with an entry without "=" that starts with the prefix;
    a volume directory that does not exist. *)
Definition wBroken : World := world ["CFM_BROKEN"] tree0 200.
Definition wMissing : World :=
  world [] (NoStat "config" "no such file or directory") 200.

(** A server that answers the first request of the process with 500 and
    the later ones with 200. *)
Definition wFlaky : World :=
  {| Environ := [];
     Lstat := fun _ _ => tree0;
     Do := fun n _ => (1000000, inr (if bool_decide (n = 0%nat) then 500 else 200));
     NewWatcherErr := None;
     WatcherAddErr := fun _ => None;
     ListenAndServeErr := None |}.

(** A watcher that refuses every directory. *)
Definition wRefuse : World :=
  {| Environ := [];
     Lstat := fun _ _ => tree0;
     Do := fun _ _ => (1000000, inr 200);
     NewWatcherErr := None;
     WatcherAddErr := fun _ => Some "no space left on device";
     ListenAndServeErr := None |}.

(** A [ServeMux] that refuses the empty pattern and the patterns it
    holds. *)
Definition muxAccepts (mux : list string) (pattern : string) : bool :=
  negb (bool_decide (pattern = "")) && negb (bool_decide (pattern ∈ mux)).

(** The library with a [filepath.Match] that refuses the pattern "[". *)
Definition libBad : GoLib := {|
  Join dir name := dir +:+ "/" +:+ name;
  Match pattern name :=
    if bool_decide (pattern = "[") then None
    else Some (glob (String.list_ascii_of_string pattern)
                    (String.list_ascii_of_string name));
  newRequestErr _ _ := None;
  rangeMap _ m := map_to_list m;
  rangeMap_perm _ _ := reflexivity _;
|}.

Definition withPattern (p : string) (f : Flags) : Flags :=
  {| volumeDirs := volumeDirs f; webhook := webhook f;
     webhookMethod := webhookMethod f;
     webhookStatusCode := webhookStatusCode f;
     webhookRetries := webhookRetries f;
     listenAddress := listenAddress f; metricPath := metricPath f;
     filePattern := p; writeToPattern := writeToPattern f;
     envPrefix := envPrefix f; initSleepTime := initSleepTime f;
     runsAsInitContianer := runsAsInitContianer f |}.

End Example.

(** * Properties *)

Import Example.

(** ** The event filter *)

Lemma land_Create_testbit op :
  Z.land op Fsnotify.Create = Fsnotify.Create <-> Z.testbit op 0 = true.
Proof.
  unfold Fsnotify.Create. change 1 with (Z.ones 1) at 1.
  rewrite Z.land_ones by lia. change (2 ^ 1) with 2.
  rewrite <- Z.bit0_mod. destruct (Z.testbit op 0); simpl; split; congruence.
Qed.

Lemma list_ascii_of_string_app s t :
  String.list_ascii_of_string (s +:+ t)
  = String.list_ascii_of_string s ++ String.list_ascii_of_string t.
Proof. induction s as [|c s IH]; simpl; [done|]. by rewrite IH. Qed.

Lemma Base_sentinel dir : Filepath.Base (dir +:+ "/..data") = "..data".
Proof.
  unfold Filepath.Base. rewrite bool_decide_eq_false_2.
  2:{ destruct dir; discriminate. }
  cbv zeta. rewrite list_ascii_of_string_app, rev_app_distr.
  reflexivity.
Qed.

(** C4. The filter accepts an event exactly when its [Op] has the [Create]
    bit (bit 0 of the mask, what [Op&Create == Create] tests) and the base
    name of its [Name] is "..data". So an event whose [Op] is [Write],
    [Remove], [Rename] or [Chmod] is rejected whatever its name, and the
    creation of "..data" in any directory is accepted. *)
Theorem isValidEvent_accepts_create_of_sentinel (event : Fsnotify.Event) :
  (isValidEvent event = true <->
     Z.testbit (Fsnotify.Op event) 0 = true /\
     Filepath.Base (Fsnotify.Name event) = "..data")
  /\ (forall name op,
        op ∈ [Fsnotify.Write; Fsnotify.Remove; Fsnotify.Rename; Fsnotify.Chmod] ->
        isValidEvent {| Fsnotify.Name := name; Fsnotify.Op := op |} = false)
  /\ (forall dir,
        isValidEvent {| Fsnotify.Name := dir +:+ "/..data";
                        Fsnotify.Op := Fsnotify.Create |} = true).
Proof.
  split; [|split].
  - unfold isValidEvent. rewrite <- land_Create_testbit.
    destruct (Z.eqb_spec (Z.land (Fsnotify.Op event) Fsnotify.Create)
                         Fsnotify.Create) as [E|E]; simpl.
    + case_bool_decide; simpl; split; try tauto; try discriminate.
    + split; [discriminate | tauto].
  - intros name op Hop. unfold isValidEvent; simpl.
    repeat (apply elem_of_cons in Hop as [-> | Hop]; [reflexivity|]).
    by apply elem_of_nil in Hop.
  - intros dir. unfold isValidEvent; simpl. by rewrite Base_sentinel.
Qed.

(** ** Machine integers *)

Lemma wrap64_range z : inInt (wrap64 z).
Proof. unfold inInt, wrap64. pose proof (Z.mod_pos_bound (z + 2 ^ 63) (2 ^ 64)). lia. Qed.

Lemma wrap64_id z : inInt z -> wrap64 z = z.
Proof. unfold inInt, wrap64. intros Hz. rewrite Z.mod_small; lia. Qed.

Lemma rounds_wrap64 z : rounds (wrap64 z) = rounds z.
Proof.
  unfold rounds, wrap64.
  rewrite Zminus_mod, Zmod_mod, <- Zminus_mod. f_equal. lia.
Qed.

Lemma rounds_nonneg r : 0 <= r < 2 ^ 63 -> rounds r = r.
Proof. unfold rounds. intros Hr. apply Z.mod_small. lia. Qed.

Lemma rounds_neg r : - 2 ^ 63 <= r < 0 -> rounds r = 2 ^ 64 + r.
Proof.
  unfold rounds. intros Hr. symmetry.
  apply (Z.mod_unique r (2 ^ 64) (-1)); lia.
Qed.

Lemma rounds_bound r : 0 <= rounds r < 2 ^ 64.
Proof. unfold rounds. apply Z.mod_pos_bound. lia. Qed.

Lemma rounds_zero r : inInt r -> rounds r = 0 -> r = 0.
Proof.
  unfold inInt. intros Hr. destruct (Z_lt_le_dec r 0).
  - rewrite rounds_neg by lia. lia.
  - rewrite rounds_nonneg by lia. lia.
Qed.

Lemma rounds_pred r :
  inInt r -> r <> 0 -> rounds (wrap64 (r - 1)) = rounds r - 1.
Proof.
  unfold inInt. intros Hr Hne. rewrite rounds_wrap64.
  destruct (Z_lt_le_dec r 0).
  - rewrite (rounds_neg r) by lia. unfold rounds. symmetry.
    apply (Z.mod_unique (r - 1) (2 ^ 64) (-1)); lia.
  - rewrite !rounds_nonneg; lia.
Qed.

(** ** The retry loop *)

Section RetryFacts.
Context `{GoLib}.
Variable flags : Flags.
Variable w : World.


Lemma retryLoop_done fuel h req begun st :
  retryLoop flags w fuel h req begun 0 st = Some (false, st).
Proof. by destruct fuel. Qed.

Lemma retryLoop_out_of_fuel h req begun retries st :
  retries <> 0 -> retryLoop flags w 0 h req begun retries st = None.
Proof. intros Hne. simpl. by rewrite (proj2 (Z.eqb_neq _ _) Hne). Qed.

Lemma retryLoop_failed fuel h req begun retries st :
  retries <> 0 ->
  succeeds flags w req (nreq st) = false ->
  retryLoop flags w (S fuel) h req begun retries st
  = retryLoop flags w fuel h req begun (wrap64 (retries - 1))
              (failedRound flags w h req retries st).
Proof.
  intros Hne Hs. unfold succeeds in Hs. unfold failedRound.
  cbn [retryLoop]. rewrite (proj2 (Z.eqb_neq _ _) Hne).
  change (nreq (announce flags retries st)) with (nreq st).
  destruct (Do w (nreq st) req) as [took [err|code]]; simpl in Hs; [done|].
  by rewrite Hs.
Qed.

Lemma retryLoop_succeeded fuel h req begun retries st :
  retries <> 0 ->
  succeeds flags w req (nreq st) = true ->
  exists st',
    retryLoop flags w (S fuel) h req begun retries st = Some (true, st')
    /\ nreq st' = S (nreq st)
    /\ exists l1 l2, trace st' = trace st ++ l1 ++ [ADo req] ++ l2
                     /\ requests l1 = 0%nat /\ requests l2 = 0%nat.
Proof.
  intros Hne Hs. unfold succeeds in Hs.
  cbn [retryLoop]. rewrite (proj2 (Z.eqb_neq _ _) Hne).
  change (nreq (announce flags retries st)) with (nreq st).
  destruct (Do w (nreq st) req) as [took [err|code]]; simpl in Hs; [done|].
  rewrite Hs. simpl. eexists; split; [reflexivity|]. split; [reflexivity|].
  eexists [_], [_]. simpl. rewrite <- !app_assoc. done.
Qed.

Lemma failedRound_nreq h req retries st :
  nreq (failedRound flags w h req retries st) = S (nreq st).
Proof.
  unfold failedRound.
  change (nreq (announce flags retries st)) with (nreq st).
  by destruct (Do w (nreq st) req) as [took [err|code]].
Qed.

Lemma failedRound_trace h req retries st :
  exists l1 l2,
    trace (failedRound flags w h req retries st)
    = trace st ++ l1 ++ [ADo req] ++ l2 ++ [ASleep (Second * 10)]
    /\ wire l1 = [] /\ wire l2 = [].
Proof.
  unfold failedRound.
  change (nreq (announce flags retries st)) with (nreq st).
  destruct (Do w (nreq st) req) as [took [err|code]]; simpl;
    eexists [_], [_]; rewrite <- !app_assoc; done.
Qed.

Lemma wire_app l1 l2 : wire (l1 ++ l2) = wire l1 ++ wire l2.
Proof. apply List.filter_app. Qed.

Lemma requests_app l1 l2 : requests (l1 ++ l2) = (requests l1 + requests l2)%nat.
Proof. unfold requests. by rewrite List.filter_app, length_app. Qed.

Lemma requests_wire l : requests (wire l) = requests l.
Proof.
  unfold requests, wire. induction l as [|a l IH]; [done|].
  destruct a; simpl; auto.
Qed.

Lemma failedRound_errors h req retries st reason :
  reason <> "client_request_do" -> reason <> "client_response" ->
  requestErrorsByReason (metrics (failedRound flags w h req retries st))
    !! (URLString h, reason)
  = requestErrorsByReason (metrics st) !! (URLString h, reason).
Proof.
  intros H1 H2. unfold failedRound.
  change (nreq (announce flags retries st)) with (nreq st).
  destruct (Do w (nreq st) req) as [took [err|code]]; simpl;
    unfold Inc; rewrite lookup_insert_ne; congruence.
Qed.

(** While no request succeeds the loop makes [rounds retries] rounds, each
    a request followed by a sleep of ten seconds, and ends without
    success. *)
Lemma retryLoop_never_success h req begun fuel :
  forall retries st,
    inInt retries ->
    (forall i, (nreq st <= i)%nat -> succeeds flags w req i = false) ->
    (Z.of_nat fuel < rounds retries ->
     retryLoop flags w fuel h req begun retries st = None)
    /\ (rounds retries <= Z.of_nat fuel ->
        exists st',
          retryLoop flags w fuel h req begun retries st = Some (false, st')
          /\ nreq st' = (nreq st + Z.to_nat (rounds retries))%nat
          /\ (forall reason,
                reason <> "client_request_do" -> reason <> "client_response" ->
                requestErrorsByReason (metrics st') !! (URLString h, reason)
                = requestErrorsByReason (metrics st) !! (URLString h, reason))
          /\ exists new,
              trace st' = trace st ++ new
              /\ wire new
                 = mjoin (replicate (Z.to_nat (rounds retries))
                                    [ADo req; ASleep (Second * 10)])).
Proof.
  induction fuel as [|fuel IH]; intros retries st Hr Hfail.
  - destruct (Z.eq_dec retries 0) as [->|Hne].
    + split; [change (rounds 0) with 0; lia|]. intros _.
      exists st. split; [done|]. change (rounds 0) with 0. simpl.
      split; [lia|]. split; [done|]. exists []. by rewrite app_nil_r.
    + split; [intros _; by apply retryLoop_out_of_fuel|].
      intros Hle. pose proof (rounds_bound retries).
      assert (rounds retries = 0) as E by lia.
      by apply rounds_zero in E.
  - destruct (Z.eq_dec retries 0) as [->|Hne].
    + split; [change (rounds 0) with 0; lia|]. intros _.
      exists st. split; [done|]. change (rounds 0) with 0. simpl.
      split; [lia|]. split; [done|]. exists []. by rewrite app_nil_r.
    + rewrite retryLoop_failed by (auto; apply Hfail; lia).
      pose proof (rounds_pred retries Hr Hne) as Hp.
      pose proof (rounds_bound (wrap64 (retries - 1))) as Hb.
      destruct (IH (wrap64 (retries - 1)) (failedRound flags w h req retries st))
        as [IHnone IHsome].
      { apply wrap64_range. }
      { intros i Hi. apply Hfail. rewrite failedRound_nreq in Hi. lia. }
      split; [intros Hlt; apply IHnone; lia|].
      intros Hle. destruct IHsome as (st' & -> & Hn & Herr & new & Ht & Hw); [lia|].
      exists st'. split; [done|].
      assert (Z.to_nat (rounds retries)
              = S (Z.to_nat (rounds (wrap64 (retries - 1))))) as EQ by lia.
      split; [rewrite Hn, failedRound_nreq; lia|].
      split.
      { intros reason H1 H2. rewrite Herr by done.
        by apply failedRound_errors. }
      destruct (failedRound_trace h req retries st) as (l1 & l2 & Hft & W1 & W2).
      exists (l1 ++ [ADo req] ++ l2 ++ [ASleep (Second * 10)] ++ new).
      split.
      { rewrite Ht, Hft. by rewrite <- !app_assoc. }
      rewrite EQ. rewrite !wire_app, W1, W2, Hw. reflexivity.
Qed.

(** Whatever the server answers: the loop ends within [rounds retries]
    rounds, on the first request that succeeds if there is one. *)
Lemma retryLoop_terminates h req begun fuel :
  forall retries st,
    inInt retries ->
    rounds retries <= Z.of_nat fuel ->
    is_Some (retryLoop flags w fuel h req begun retries st).
Proof.
  induction fuel as [|fuel IH]; intros retries st Hr Hle.
  - pose proof (rounds_bound retries).
    assert (retries = 0) as -> by (apply rounds_zero; [done | lia]).
    by rewrite retryLoop_done.
  - destruct (Z.eq_dec retries 0) as [->|Hne]; [by rewrite retryLoop_done|].
    destruct (succeeds flags w req (nreq st)) eqn:Hs.
    + destruct (retryLoop_succeeded fuel h req begun retries st Hne Hs)
        as (st' & -> & _). done.
    + rewrite retryLoop_failed by done. apply IH; [apply wrap64_range|].
      rewrite rounds_pred by done. lia.
Qed.

Lemma retryLoop_attempts h req begun fuel :
  forall retries st ok st',
    inInt retries ->
    retryLoop flags w fuel h req begun retries st = Some (ok, st') ->
    (nreq st <= nreq st')%nat
    /\ Z.of_nat (nreq st' - nreq st) <= rounds retries
    /\ (forall i, (nreq st <= i < nreq st')%nat ->
                  succeeds flags w req i = true -> S i = nreq st')
    /\ (ok = true ->
        (nreq st < nreq st')%nat
        /\ succeeds flags w req (nreq st' - 1) = true)
    /\ (ok = false -> Z.of_nat (nreq st' - nreq st) = rounds retries)
    /\ exists new,
        trace st' = trace st ++ new
        /\ requests new = (nreq st' - nreq st)%nat
        /\ (forall r, ADo r ∈ new -> r = req).
Proof.
  induction fuel as [|fuel IH]; intros retries st ok st' Hr Hrun.
  - destruct (Z.eq_dec retries 0) as [->|Hne].
    + rewrite retryLoop_done in Hrun. injection Hrun as <- <-.
      change (rounds 0) with 0.
      repeat split; try lia; try discriminate.
      exists []. rewrite app_nil_r. split; [done|].
      split; [unfold requests; simpl; lia|].
      intros r Hin. by apply elem_of_nil in Hin.
    + by rewrite retryLoop_out_of_fuel in Hrun.
  - destruct (Z.eq_dec retries 0) as [->|Hne].
    + rewrite retryLoop_done in Hrun. injection Hrun as <- <-.
      change (rounds 0) with 0.
      repeat split; try lia; try discriminate.
      exists []. rewrite app_nil_r. split; [done|].
      split; [unfold requests; simpl; lia|].
      intros r Hin. by apply elem_of_nil in Hin.
    + pose proof (rounds_pred retries Hr Hne) as Hp.
      pose proof (rounds_bound (wrap64 (retries - 1))) as Hb.
      destruct (succeeds flags w req (nreq st)) eqn:Hs.
      * destruct (retryLoop_succeeded fuel h req begun retries st Hne Hs)
          as (st1 & E & Hn & l1 & l2 & Ht & R1 & R2).
        rewrite E in Hrun. injection Hrun as <- <-.
        rewrite Hn. pose proof (rounds_bound retries).
        assert (rounds retries <> 0) by (intros E0; by apply rounds_zero in E0).
        split; [lia|]. split; [lia|]. split; [intros i Hi _; lia|].
        split.
        { intros _. split; [lia|].
          replace (S (nreq st) - 1)%nat with (nreq st) by lia. done. }
        split; [discriminate|].
        exists (l1 ++ [ADo req] ++ l2). split; [done|]. split.
        { rewrite !requests_app, R1, R2. simpl. lia. }
        intros r Hin. rewrite !elem_of_app in Hin.
        destruct Hin as [Hin|[Hin|Hin]].
        -- exfalso. unfold requests in R1.
           apply length_zero_iff_nil in R1.
           assert (In (ADo r) (List.filter isDo l1)) as Hf.
           { apply List.filter_In. split; [by apply list_elem_of_In|done]. }
           by rewrite R1 in Hf.
        -- apply list_elem_of_singleton in Hin. congruence.
        -- exfalso. unfold requests in R2.
           apply length_zero_iff_nil in R2.
           assert (In (ADo r) (List.filter isDo l2)) as Hf.
           { apply List.filter_In. split; [by apply list_elem_of_In|done]. }
           by rewrite R2 in Hf.
      * rewrite retryLoop_failed in Hrun by done.
        apply IH in Hrun; [|apply wrap64_range].
        rewrite failedRound_nreq in Hrun.
        destruct Hrun as (Hle & Hbound & Hlast & Hok & Hko & new & Ht & Hreq & Hall).
        split; [lia|]. split; [lia|]. split.
        { intros i Hi Hsi. destruct (decide (i = nreq st)) as [->|Hne'].
          - congruence.
          - apply Hlast; [lia|done]. }
        split.
        { intros Hok'. destruct (Hok Hok') as [? ?]. split; [lia|done]. }
        split; [intros Hko'; specialize (Hko Hko'); lia|].
        destruct (failedRound_trace h req retries st) as (l1 & l2 & Hft & W1 & W2).
        exists (l1 ++ [ADo req] ++ l2 ++ [ASleep (Second * 10)] ++ new).
        split; [rewrite Ht, Hft; by rewrite <- !app_assoc|].
        split.
        { rewrite !requests_app, Hreq.
          rewrite <- (requests_wire l1), <- (requests_wire l2), W1, W2.
          change (requests [ADo req]) with 1%nat.
          change (requests [ASleep (Second * 10)]) with 0%nat.
          change (requests []) with 0%nat. lia. }
        intros r Hin. rewrite !elem_of_app in Hin.
        destruct Hin as [Hin|[Hin|[Hin|[Hin|Hin]]]].
        -- exfalso. assert (In (ADo r) (wire l1)) as Hf.
           { apply List.filter_In. split; [by apply list_elem_of_In|done]. }
           by rewrite W1 in Hf.
        -- apply list_elem_of_singleton in Hin. congruence.
        -- exfalso. assert (In (ADo r) (wire l2)) as Hf.
           { apply List.filter_In. split; [by apply list_elem_of_In|done]. }
           by rewrite W2 in Hf.
        -- apply list_elem_of_singleton in Hin. discriminate.
        -- by apply Hall.
Qed.
End RetryFacts.

(** ** The work on one webhook *)

Section NotifyFacts.
Context `{GoLib}.
Variable flags : Flags.
Variable w : World.

Lemma exhausted_metrics h st :
  requestErrorsByReason (metrics (exhausted h st)) !! (URLString h, "retries_exhausted")
  = Some (S (default 0%nat
               (requestErrorsByReason (metrics st) !! (URLString h, "retries_exhausted"))))
  /\ lastReloadError (metrics (exhausted h st)) !! URLString h = Some 1.
Proof. simpl. unfold Inc. by rewrite !lookup_insert_eq. Qed.

(** C2. With three retries and a server that answers every request with a
    status code other than the expected one, the work on a webhook ends
    (three rounds of fuel are enough) after exactly three requests, each
    followed by a sleep of ten seconds (so two sleeps lie between the
    requests, and a third one follows the last request); the last thing
    logged is that the retries are exhausted, the counter of the reason
    [retries_exhausted] has gone up by one and the gauge of the last reload
    error is 1. *)
Theorem notify_three_retries_exhausted h req st fuel :
  webhookRetries flags = 3 ->
  webhookRequest flags h = inr req ->
  (forall n, exists took code,
      Do w n req = (took, inr code) /\ code <> webhookStatusCode flags) ->
  (3 <= fuel)%nat ->
  exists st' new,
    notify flags w fuel h st = Some st'
    /\ trace st' = trace st ++ new
    /\ requests new = 3%nat
    /\ wire new = [ADo req; ASleep (10 * 1000000000);
                   ADo req; ASleep (10 * 1000000000);
                   ADo req; ASleep (10 * 1000000000)]
    /\ last new = Some (ALog "error:" [LStr "Webhook reload retries exhausted"])
    /\ requestErrorsByReason (metrics st') !! (URLString h, "retries_exhausted")
       = Some (S (default 0%nat
                    (requestErrorsByReason (metrics st)
                       !! (URLString h, "retries_exhausted"))))
    /\ lastReloadError (metrics st') !! URLString h = Some 1.
Proof.
  intros Hretries Hreq Hserver Hfuel.
  assert (forall i, (nreq st <= i)%nat -> succeeds flags w req i = false) as Hfail.
  { intros i _. unfold succeeds. destruct (Hserver i) as (took & code & -> & Hne).
    simpl. by apply Z.eqb_neq. }
  destruct (retryLoop_never_success flags w h req (now st) fuel 3 st) as [_ Hrun].
  { unfold inInt. lia. }
  { done. }
  destruct Hrun as (st1 & Hloop & Hn & Herr & new & Ht & Hw).
  { rewrite rounds_nonneg; lia. }
  unfold notify. rewrite Hreq, Hretries, Hloop. simpl.
  exists (exhausted h st1),
         (new ++ [ALog "error:" [LStr "Webhook reload retries exhausted"]]).
  split; [done|]. split; [simpl; by rewrite Ht, <- app_assoc|].
  change (Z.to_nat (rounds 3)) with 3%nat in Hw. simpl in Hw.
  split.
  { rewrite <- requests_wire, wire_app, Hw. reflexivity. }
  split; [by rewrite wire_app, Hw|].
  split; [apply last_snoc|].
  destruct (exhausted_metrics h st1) as [E1 E2].
  split; [|done]. rewrite E1, Herr; done.
Qed.
End NotifyFacts.


Lemma notify_three_retries_exhausted_witness :
  exists st' new,
    notify flags3 w500 3 hook initState = Some st'
    /\ trace st' = trace initState ++ new
    /\ requests new = 3%nat.
Proof.
  destruct (notify_three_retries_exhausted flags3 w500 hook
              {| Method := "POST"; ReqURL := URLString hook; Header := ∅ |}
              initState 3)
    as (st' & new & H1 & H2 & H3 & _).
  - reflexivity.
  - reflexivity.
  - intros n. exists 1000000, 500. split; [reflexivity|]. discriminate.
  - lia.
  - exists st', new. auto.
Defined.

Section NotifyBounds.
Context `{GoLib}.
Variable flags : Flags.
Variable w : World.

Lemma requests_snoc_log l f args : requests (l ++ [ALog f args]) = requests l.
Proof. rewrite requests_app. change (requests [ALog f args]) with 0%nat. lia. Qed.

(** C3, for a retry count that is not negative. The work on a webhook ends
    when the fuel is at least the retry count. When it ends, the number of
    requests made is at most the retry count; a request that succeeds is
    the last one made; and with a retry count of 1 exactly one request is
    made when the request could be created. *)
Theorem notify_attempts_bounded h st fuel :
  0 <= webhookRetries flags < 2 ^ 63 ->
  (webhookRetries flags <= Z.of_nat fuel -> is_Some (notify flags w fuel h st))
  /\ forall st',
      notify flags w fuel h st = Some st' ->
      exists new,
        trace st' = trace st ++ new
        /\ requests new = (nreq st' - nreq st)%nat
        /\ Z.of_nat (requests new) <= webhookRetries flags
        /\ (forall req i,
              webhookRequest flags h = inr req ->
              (nreq st <= i < nreq st')%nat ->
              succeeds flags w req i = true -> S i = nreq st')
        /\ (forall req,
              webhookRequest flags h = inr req ->
              webhookRetries flags = 1 -> requests new = 1%nat).
Proof.
  intros Hr. assert (inInt (webhookRetries flags)) as Hin by (unfold inInt; lia).
  pose proof (rounds_nonneg _ Hr) as Hrounds.
  unfold notify. destruct (webhookRequest flags h) as [err|req] eqn:Hreq.
  - split; [done|]. intros st' [= <-]. eexists [_]. simpl.
    split; [done|]. split; [unfold requests; simpl; lia|].
    split; [unfold requests; simpl; lia|]. split; [|done].
    intros req i _ Hi. lia.
  - split.
    + intros Hfuel.
      destruct (retryLoop_terminates flags w h req (now st) fuel
                  (webhookRetries flags) st) as [[ok st1] ->]; [done|lia|].
      simpl. by destruct ok.
    + intros st' Hrun.
      destruct (retryLoop flags w fuel h req (now st) (webhookRetries flags) st)
        as [[ok st1]|] eqn:Hloop; [|done]. simpl in Hrun.
      destruct (retryLoop_attempts flags w h req (now st) fuel _ _ _ _ Hin Hloop)
        as (Hle & Hbound & Hlast & Hok & Hko & new & Ht & Hn & _).
      rewrite Hrounds in *.
      destruct ok; simpl in Hrun; injection Hrun as <-.
      * exists new. split; [done|]. split; [done|]. split; [lia|].
        split; [intros req' i [= <-]; apply Hlast|].
        intros req' _ H1. destruct (Hok eq_refl). lia.
      * exists (new ++ [ALog "error:" [LStr "Webhook reload retries exhausted"]]).
        simpl. split; [by rewrite Ht, <- app_assoc|].
        rewrite requests_snoc_log.
        split; [done|]. split; [lia|].
        split; [intros req' i [= <-]; apply Hlast|].
        intros req' _ H1. specialize (Hko eq_refl). lia.
Qed.



End NotifyBounds.


Lemma notify_attempts_bounded_witness :
  0 <= webhookRetries flags1 < 2 ^ 63
  /\ is_Some (notify flags1 w200 1 hook initState).
Proof.
  assert (0 <= webhookRetries flags1 < 2 ^ 63) as Hr by (simpl; lia).
  split; [exact Hr|].
  apply (proj1 (notify_attempts_bounded flags1 w200 hook initState 1 Hr)).
  simpl. lia.
Defined.

(** C3 as stated fails for a negative retry count: with a count of -1 and
    a server that answers the first request with the expected status, one
    request is made, more than the configured count. *)
Lemma notify_negative_retries_exceeds_bound :
  exists st',
    notify flagsNeg w200 1 hook initState = Some st'
    /\ webhookRetries flagsNeg < Z.of_nat (requests (trace st')).
Proof. eexists. split; [vm_compute; reflexivity|]. vm_compute. reflexivity. Qed.




(** ** The walk *)

(** Induction over a tree, with the hypothesis for every entry of a
    directory. *)
Lemma entry_rect_Forall (P : entry -> Prop) :
  (forall name io, P (File name io)) ->
  (forall name readdir_err children,
      Forall P children -> P (Dir name readdir_err children)) ->
  (forall name err, P (NoStat name err)) ->
  forall e, P e.
Proof.
  intros HF HD HN. fix IH 1. intros [name io|name rderr children|name err].
  - apply HF.
  - apply HD. induction children as [|c children IHc]; constructor.
    + apply IH.
    + apply IHc.
  - apply HN.
Qed.

Section WalkFacts.
Context `{GoLib}.
Variable flags : Flags.
Variable w : World.

Lemma isVolume_elem path :
  existsb (fun d => bool_decide (d = path)) (volumeDirs flags) = true
  <-> path ∈ volumeDirs flags.
Proof.
  rewrite existsb_exists. split.
  - intros (d & Hin & Hd). apply bool_decide_eq_true in Hd as <-.
    by apply list_elem_of_In.
  - intros Hin. exists path. split; [by apply list_elem_of_In|].
    by apply bool_decide_eq_true.
Qed.

Lemma no_write_app l1 l2 :
  List.filter isWrite (l1 ++ l2) = []
  <-> List.filter isWrite l1 = [] /\ List.filter isWrite l2 = [].
Proof.
  rewrite List.filter_app. split.
  - intros E. by apply app_eq_nil in E.
  - intros [-> ->]. done.
Qed.

Lemma no_write_elem l :
  List.filter isWrite l = [] <-> forall a, a ∈ l -> isWrite a = false.
Proof.
  induction l as [|b l IH]; simpl.
  - split; [|done]. intros _ a Hin. by apply elem_of_nil in Hin.
  - destruct (isWrite b) eqn:Hb.
    + split; [done|]. intros Hall. rewrite Hall in Hb; [done|]. by left.
    + rewrite IH. split.
      * intros Hall a Hin. apply elem_of_cons in Hin as [->|Hin]; auto.
      * intros Hall a Hin. apply Hall. by right.
Qed.

(** What [updateFile] does on a directory and on a name that could not be
    examined: it writes nothing, and it lets the walk enter a directory
    only if its names could be read and its path is one of [volumeDirs]. *)
Lemma updateFile_dir path name rderr r t :
  updateFile flags w path (Some {| fiName := name; fiIsDir := true |})
             (OsError <$> rderr) dirIO = (r, t) ->
  List.filter isWrite t = []
  /\ (r = Ret None -> rderr = None /\ path ∈ volumeDirs flags).
Proof.
  unfold updateFile. destruct (initEnvMap flags w) as [envMap|].
  2:{ intros [= <- <-]. done. }
  set (l0 := if bool_decide _ then _ else _).
  assert (List.filter isWrite l0 = []) as Hl0 by (subst l0; by case_bool_decide).
  destruct rderr as [e|]; simpl.
  { intros [= <- <-]. done. }
  destruct (existsb _ _) eqn:Hvol.
  - intros [= <- <-]. split; [done|]. intros _. split; [done|].
    by apply isVolume_elem.
  - intros [= <- <-]. split; [|done]. apply no_write_app. done.
Qed.

Lemma updateFile_nostat path err io r t :
  updateFile flags w path None (Some err) io = (r, t) ->
  List.filter isWrite t = [] /\ (r = Panic \/ r = Ret (Some err)).
Proof.
  unfold updateFile. destruct (initEnvMap flags w) as [envMap|].
  2:{ intros [= <- <-]. auto. }
  intros [= <- <-]. split; [by case_bool_decide | auto].
Qed.

(** Whatever [updateFile] writes for an entry that is no directory goes to
    the entry's name in the destination directory, and the name matches
    the pattern. *)
Lemma updateFile_file_writes path name io a :
  a ∈ (updateFile flags w path (Some {| fiName := name; fiIsDir := false |})
                  None io).2 ->
  isWrite a = true ->
  Match (filePattern flags) name = Some true
  /\ exists data err, a = AWriteFile (Join (writeToPattern flags) name) data 438 err.
Proof.
  unfold updateFile. destruct (initEnvMap flags w) as [envMap|]; simpl.
  2:{ intros Hin. by apply elem_of_nil in Hin. }
  set (l0 := if bool_decide _ then _ else _).
  assert (forall b, b ∈ l0 -> isWrite b = false) as Hl0.
  { subst l0. case_bool_decide; intros b Hb.
    - apply list_elem_of_singleton in Hb as ->. done.
    - by apply elem_of_nil in Hb. }
  destruct (Match (filePattern flags) name) as [[|]|]; simpl.
  - destruct (ReadFile io) as [e|read]; simpl.
    + intros Hin Hw. exfalso.
      repeat (apply elem_of_app in Hin as [Hin|Hin]);
        try (apply list_elem_of_singleton in Hin as ->; done).
      by rewrite Hl0 in Hw.
    + destruct (WriteFile io _ _) as [e|]; simpl; intros Hin Hw.
      * repeat (apply elem_of_app in Hin as [Hin|Hin]);
          try (apply list_elem_of_singleton in Hin as ->; done).
        { by rewrite Hl0 in Hw. }
        apply elem_of_cons in Hin as [->|Hin]; [eauto|].
        apply list_elem_of_singleton in Hin as ->. done.
      * repeat (apply elem_of_app in Hin as [Hin|Hin]);
          try (apply list_elem_of_singleton in Hin as ->; done).
        { by rewrite Hl0 in Hw. }
        apply list_elem_of_singleton in Hin as ->. eauto.
  - intros Hin Hw. exfalso.
    repeat (apply elem_of_app in Hin as [Hin|Hin]);
      try (apply list_elem_of_singleton in Hin as ->; done).
    by rewrite Hl0 in Hw.
  - intros Hin Hw. exfalso.
    repeat (apply elem_of_app in Hin as [Hin|Hin]);
      try (apply list_elem_of_singleton in Hin as ->; done).
    by rewrite Hl0 in Hw.
Qed.

(** Every action of the loop over the names of a directory is an action
    of the walk of one of the entries. *)
Lemma walkNames_trace (rec : string -> entry -> result * list action) path l a :
  a ∈ (walkNames rec path l).2 ->
  exists c, c ∈ l /\ a ∈ (rec (Join path (entryName c)) c).2.
Proof.
  induction l as [|c l IH]; simpl.
  - intros Hin. by apply elem_of_nil in Hin.
  - destruct (rec (Join path (entryName c)) c) as [r t] eqn:Hrec.
    assert (a ∈ t -> exists c0, c0 ∈ c :: l /\ a ∈ (rec (Join path (entryName c0)) c0).2)
      as Hhere.
    { intros Hin. exists c. rewrite Hrec. split; [by left|done]. }
    assert (a ∈ (walkNames rec path l).2 ->
            exists c0, c0 ∈ c :: l /\ a ∈ (rec (Join path (entryName c0)) c0).2)
      as Hthere.
    { intros Hin. destruct (IH Hin) as (c0 & Hc0 & Ha). exists c0.
      split; [by right|done]. }
    destruct r as [[err|]|].
    + destruct (stops c err); simpl; [done|].
      destruct (walkNames rec path l) as [r' t']; simpl in *.
      intros Hin. apply elem_of_app in Hin as [Hin|Hin]; auto.
    + destruct (walkNames rec path l) as [r' t']; simpl in *.
      intros Hin. apply elem_of_app in Hin as [Hin|Hin]; auto.
    + done.
Qed.

(** What the walk writes: the copy of the entry itself when the entry is
    no directory, and otherwise copies of entries that lie directly in a
    directory whose path is one of [volumeDirs]. *)
Lemma walk_writes e :
  forall path a,
    a ∈ (walk (updateFile flags w) path e).2 ->
    isWrite a = true ->
    (exists name io,
        e = File name io
        /\ Match (filePattern flags) name = Some true
        /\ exists data err,
            a = AWriteFile (Join (writeToPattern flags) name) data 438 err)
    \/ (exists dir name,
           dir ∈ volumeDirs flags
           /\ childOf path e dir name
           /\ Match (filePattern flags) name = Some true
           /\ exists data err,
               a = AWriteFile (Join (writeToPattern flags) name) data 438 err).
Proof.
  induction e as [name io|name rderr children IH|name err] using entry_rect_Forall;
    intros path a Hin Hw.
  - left. simpl in Hin. destruct (updateFile_file_writes _ _ _ _ Hin Hw). eauto 10.
  - right. simpl in Hin.
    destruct (updateFile flags w path
                (Some {| fiName := name; fiIsDir := true |})
                (OsError <$> rderr) dirIO) as [r1 t1] eqn:Hdir.
    apply updateFile_dir in Hdir as [Hnow Hret].
    rewrite no_write_elem in Hnow.
    destruct r1 as [err1|]; [|by rewrite (Hnow a Hin) in Hw].
    destruct rderr as [e|], err1 as [e1|]; simpl in Hin;
      try (by rewrite (Hnow a Hin) in Hw).
    destruct (Hret eq_refl) as [_ Hvol].
    destruct (walkNames _ path children) as [r t] eqn:Hnames. simpl in Hin.
    apply elem_of_app in Hin as [Hin|Hin]; [by rewrite (Hnow a Hin) in Hw|].
    assert (a ∈ (walkNames (walk (updateFile flags w)) path children).2) as Hin'
      by (by rewrite Hnames).
    apply walkNames_trace in Hin' as (c & Hc & Ha).
    rewrite Forall_forall in IH.
    destruct (IH c Hc _ _ Ha Hw)
      as [(cname & io & -> & Hm & Hdata)|(dir & cname & Hdir & Hchild & Hm & Hdata)].
    + exists path, cname. split; [done|]. split; [|done].
      by apply (child_here path name children cname io).
    + exists dir, cname. split; [done|]. split; [|done].
      by apply (child_below path name children c).
  - exfalso. simpl in Hin.
    destruct (updateFile flags w path None (Some (OsError err)) dirIO)
      as [r t] eqn:Hns.
    apply updateFile_nostat in Hns as [Hnow _].
    rewrite no_write_elem in Hnow. by rewrite (Hnow a Hin) in Hw.
Qed.

Lemma Walk_trace (walkFn : WalkFunc) root e :
  (Walk walkFn root e).2 = (walk walkFn root e).2.
Proof.
  unfold Walk. destruct (walk walkFn root e) as [[[[| |]|]|] t]; done.
Qed.

(** C5. Walking a root that is a directory, every file written lies in the
    destination directory under the name of an entry that matches the
    pattern and lies directly in a directory whose path is one of
    [volumeDirs]; and the walk of a directory whose path is none of
    [volumeDirs] writes nothing, whatever the directory holds. *)
Theorem Walk_writes_children_of_volumes root e :
  entryIsDir e = true ->
  (forall filename data perm err,
      AWriteFile filename data perm err ∈ (Walk (updateFile flags w) root e).2 ->
      exists dir name,
        dir ∈ volumeDirs flags
        /\ childOf root e dir name
        /\ Match (filePattern flags) name = Some true
        /\ filename = Join (writeToPattern flags) name)
  /\ (forall path name readdir_err children,
         path ∉ volumeDirs flags ->
         List.filter isWrite
           (walk (updateFile flags w) path (Dir name readdir_err children)).2 = []).
Proof.
  intros Hdir. split.
  - intros filename data perm err Hin. rewrite Walk_trace in Hin.
    destruct (walk_writes e root _ Hin eq_refl)
      as [(name & io & -> & _)|(dir & name & Hvol & Hchild & Hm & data' & err' & E)];
      [done|].
    injection E as -> _ _ _. by exists dir, name.
  - intros path name rderr children Hnot. apply no_write_elem. intros a Hin.
    destruct (isWrite a) eqn:Hw; [exfalso|done]. simpl in Hin.
    destruct (updateFile flags w path
                (Some {| fiName := name; fiIsDir := true |})
                (OsError <$> rderr) dirIO) as [r1 t1] eqn:Hd.
    apply updateFile_dir in Hd as [Hnow Hret].
    rewrite no_write_elem in Hnow.
    destruct r1 as [err1|]; [|by rewrite (Hnow a Hin) in Hw].
    destruct rderr as [e0|], err1 as [e1|]; simpl in Hin;
      try (by rewrite (Hnow a Hin) in Hw).
    by destruct (Hret eq_refl).
Qed.
End WalkFacts.

Lemma Walk_writes_children_of_volumes_witness :
  entryIsDir treeNested = true
  /\ List.filter isWrite
       (walk (updateFile flags1 w200) "/etc/config/sub"
             (Dir "sub" None [plainFile "b.yml" "b: 1"])).2 = [].
Proof.
  split; [reflexivity|].
  apply (proj2 (Walk_writes_children_of_volumes flags1 w200 "/etc/config"
                  treeNested eq_refl)).
  intros Hin. apply list_elem_of_singleton in Hin. discriminate.
Defined.

Section WalkErrors.
Context `{GoLib}.
Variable flags : Flags.
Variable w : World.

Lemma walkNames_stops (rec : string -> entry -> result * list action)
    path before e after err t1 t2 :
  walkNames rec path before = (Ret None, t1) ->
  rec (Join path (entryName e)) e = (Ret (Some err), t2) ->
  stops e err = true ->
  walkNames rec path (before ++ e :: after) = (Ret (Some err), t1 ++ t2).
Proof.
  intros Hbefore He Hstops. revert t1 Hbefore.
  induction before as [|c before IH]; intros t1; simpl.
  - intros [= <-]. by rewrite He, Hstops.
  - destruct (rec (Join path (entryName c)) c) as [[[errc|]|] tc]; [| |done].
    + destruct (stops c errc); [done|].
      destruct (walkNames rec path before) as [r' t'].
      intros [= -> <-]. rewrite (IH t' eq_refl). by rewrite app_assoc.
    + destruct (walkNames rec path before) as [r' t'].
      intros [= -> <-]. rewrite (IH t' eq_refl). by rewrite app_assoc.
Qed.

(** A file that matches and cannot be read, or whose copy cannot be
    written: [updateFile] logs the error and returns it. *)
Lemma updateFile_fails path name io envMap msg :
  initEnvMap flags w = Some envMap ->
  Match (filePattern flags) name = Some true ->
  fails flags path name io envMap msg ->
  exists l fmt,
    updateFile flags w path (Some {| fiName := name; fiIsDir := false |}) None io
    = (Ret (Some (OsError msg)), l ++ [ALog fmt [LErr (OsError msg)]])
    /\ (fmt = "Error reading file " +:+ path
        \/ fmt = "Unable to update file " +:+ path).
Proof.
  intros Henv Hm Hfail. unfold updateFile. rewrite Henv.
  cbn [fiIsDir fiName]. rewrite Hm. cbn [default].
  destruct Hfail as [-> | (read & -> & ->)].
  - eexists _, ("Error reading file " +:+ path). split; [reflexivity|]. left. reflexivity.
  - match goal with
    | |- context [ (?l2 ++ [?a; ALog ?f ?e]) ] =>
        exists (l2 ++ [a]), f; split; [|right; reflexivity];
        rewrite <- (app_assoc l2 [a] [ALog f e]); reflexivity
    end.
Qed.
Lemma updateFile_volume path name envMap :
  initEnvMap flags w = Some envMap ->
  path ∈ volumeDirs flags ->
  exists l0,
    updateFile flags w path (Some {| fiName := name; fiIsDir := true |}) None dirIO
    = (Ret None, l0).
Proof.
  intros Henv Hvol. unfold updateFile. rewrite Henv. simpl.
  apply isVolume_elem in Hvol. rewrite Hvol. eauto.
Qed.

(** C1, as the code behaves. In a directory that is one of [volumeDirs], a
    matched file that cannot be read, or whose copy cannot be written, is
    logged and ends the walk of that directory: the walk returns the error
    and its trace is the same whatever comes after the file, so the
    entries after it are not visited. The caller logs the error of the
    walk and goes on with the next directory. *)
Theorem Walk_ends_at_file_error root dname before name io msg t1 envMap :
  root ∈ volumeDirs flags ->
  initEnvMap flags w = Some envMap ->
  Match (filePattern flags) name = Some true ->
  fails flags (Join root name) name io envMap msg ->
  walkNames (walk (updateFile flags w)) root before = (Ret None, t1) ->
  exists t l fmt,
    t = l ++ [ALog fmt [LErr (OsError msg)]]
    /\ (fmt = "Error reading file " +:+ Join root name
        \/ fmt = "Unable to update file " +:+ Join root name)
    /\ forall after,
        Walk (updateFile flags w) root
             (Dir dname None (before ++ File name io :: after))
        = (Ret (Some (OsError msg)), t)
        /\ forall text ds st,
            Lstat w (nwalk (emit [ALog (text +:+ root) []] st)) root
            = Dir dname None (before ++ File name io :: after) ->
            walkVolumes flags w text (root :: ds) st
            = walkVolumes flags w text ds
                (emit [ALog "Unable to patch files error:" [LErr (OsError msg)]]
                      (walked t (emit [ALog (text +:+ root) []] st))).
Proof.
  intros Hvol Henv Hm Hfail Hbefore.
  destruct (updateFile_fails (Join root name) name io envMap msg Henv Hm Hfail)
    as (l & fmt & Hfile & Hfmt).
  destruct (updateFile_volume root dname envMap Henv Hvol) as (l0 & Hdir).
  exists (l0 ++ t1 ++ l ++ [ALog fmt [LErr (OsError msg)]]), (l0 ++ t1 ++ l), fmt.
  split; [by rewrite <- !app_assoc|]. split; [done|].
  intros after.
  assert (Walk (updateFile flags w) root
            (Dir dname None (before ++ File name io :: after))
          = (Ret (Some (OsError msg)),
             l0 ++ t1 ++ l ++ [ALog fmt [LErr (OsError msg)]])) as HW.
  { unfold Walk. cbn [walk]. change (OsError <$> None) with (@None error).
    rewrite Hdir.
    rewrite (walkNames_stops _ root before (File name io) after (OsError msg)
               t1 (l ++ [ALog fmt [LErr (OsError msg)]])); [done|done| |done].
    simpl. exact Hfile. }
  split; [exact HW|].
  intros text ds st Htree. cbn [walkVolumes]. rewrite Htree, HW. done.
Qed.
End WalkErrors.

Lemma Walk_ends_at_file_error_witness :
  Walk (updateFile flags1 wBad) "/etc/config" treeBad
  = Walk (updateFile flags1 wBad) "/etc/config"
         (Dir "config" None [unreadable "a.yml"]).
Proof.
  destruct (Walk_ends_at_file_error flags1 wBad "/etc/config" "config" []
              "a.yml" {| ReadFile := inl "permission denied";
                         WriteFile := fun _ _ => None |}
              "permission denied" [] ∅)
    as (t & l & fmt & _ & _ & Hafter).
  - apply list_elem_of_singleton. reflexivity.
  - reflexivity.
  - reflexivity.
  - left. reflexivity.
  - reflexivity.
  - destruct (Hafter [plainFile "b.yml" "b: 1"]) as [E1 _].
    destruct (Hafter []) as [E2 _].
    exact (eq_trans E1 (eq_sym E2)).
Defined.

(** C1 as stated fails: the first file of the directory cannot be read,
    the walk returns that error and the second file, which matches and can
    be read, is not written; alone in the directory it is written. *)
Lemma Walk_does_not_continue_after_error :
  (Walk (updateFile flags1 wBad) "/etc/config" treeBad).1
  = Ret (Some (OsError "permission denied"))
  /\ List.filter isWrite (Walk (updateFile flags1 wBad) "/etc/config" treeBad).2 = []
  /\ List.filter isWrite
       (Walk (updateFile flags1 wBad) "/etc/config"
             (Dir "config" None [plainFile "b.yml" "b: 1"])).2
     = [AWriteFile "/etc/prometheus-updated/b.yml" (bytes_of "b: 1") 438 None].
Proof. repeat split; vm_compute; reflexivity. Qed.

(** ** Substitution *)

Lemma HasPrefix_app s prefix :
  GoBytes.HasPrefix s prefix = true <-> exists b, s = prefix ++ b.
Proof.
  revert s. induction prefix as [|p prefix IH]; intros [|c s]; simpl.
  - split; [intros _; by exists []|done].
  - split; [intros _; by exists (c :: s)|done].
  - split; [done|]. intros (b & Hb). done.
  - rewrite andb_true_iff, bool_decide_eq_true, IH. split.
    + intros [-> (b & ->)]. eauto.
    + intros (b & [= -> ->]). eauto.
Qed.

Lemma Index_unfold s sep :
  GoBytes.Index s sep
  = if GoBytes.HasPrefix s sep then Some 0%nat
    else match s with
         | [] => None
         | _ :: s' => S <$> GoBytes.Index s' sep
         end.
Proof. by destruct s. Qed.

(** Without an occurrence of [old] the scan copies its input. *)
Lemma replaceFrom_none old new s :
  GoBytes.Index s old = None -> GoBytes.replaceFrom old new 0 s = s.
Proof.
  induction s as [|c s IH]; [done|].
  rewrite Index_unfold. cbn [GoBytes.replaceFrom].
  destruct (GoBytes.HasPrefix (c :: s) old); [done|].
  intros E. destruct (GoBytes.Index s old); [done|]. by rewrite IH.
Qed.

(** The bytes of the occurrence found are passed over. *)
Lemma replaceFrom_skip old new x b :
  GoBytes.replaceFrom old new (length x) (x ++ b) = GoBytes.replaceFrom old new 0 b.
Proof. induction x as [|c x IH]; [by destruct b|]. exact IH. Qed.

(** At the first occurrence of a non-empty [old] the scan has copied what
    is before it, puts [new] and goes on behind the occurrence. *)
Lemma replaceFrom_first old new s i :
  old <> [] ->
  GoBytes.Index s old = Some i ->
  exists a b,
    s = a ++ old ++ b /\ length a = i
    /\ GoBytes.replaceFrom old new 0 s
       = a ++ new ++ GoBytes.replaceFrom old new 0 b.
Proof.
  intros Hold. revert i. induction s as [|c s IH]; intros i; rewrite Index_unfold.
  - destruct (GoBytes.HasPrefix [] old) eqn:Hp; [|done].
    apply HasPrefix_app in Hp as (b & Hb). symmetry in Hb.
    apply app_eq_nil in Hb as [-> _]. done.
  - cbn [GoBytes.replaceFrom].
    destruct (GoBytes.HasPrefix (c :: s) old) eqn:Hp.
    + intros [= <-]. apply HasPrefix_app in Hp as (b & Hb).
      exists [], b. split; [done|]. split; [done|].
      destruct old as [|o old]; [done|]. injection Hb as -> ->.
      cbn [length]. rewrite Nat.sub_1_r. cbn [Nat.pred app].
      by rewrite replaceFrom_skip.
    + destruct (GoBytes.Index s old) as [j|] eqn:Hj; [|done].
      intros [= <-]. destruct (IH j eq_refl) as (a & b & -> & <- & ->).
      exists (c :: a), b. done.
Qed.

(** [bytes.Replace] with a non-empty [old] replaces every occurrence. *)
Lemma Replace_replacedAll old new s :
  old <> [] -> replacedAll old new s (GoBytes.Replace s old new).
Proof.
  intros Hold.
  assert (GoBytes.Replace s old new = GoBytes.replaceFrom old new 0 s) as ->
    by (by destruct old).
  remember (length s) as n eqn:Hn.
  revert s Hn. induction (lt_wf n) as [n _ IH]. intros s ->.
  destruct (GoBytes.Index s old) as [i|] eqn:Hi.
  - destruct (replaceFrom_first old new s i Hold Hi) as (a & b & -> & <- & ->).
    apply replaced_first; [done|].
    apply (IH (length b)); [|done].
    rewrite !length_app. destruct old; [done|]. simpl. lia.
  - rewrite replaceFrom_none by done. by apply replaced_none.
Qed.



(** ** The environment map *)



Section EnvFacts.
Variables (flags : Flags) (w : World).


End EnvFacts.

Section Substitution.
Context `{GoLib}.
Variables (flags : Flags) (w : World).

Lemma filter_isWrite_snoc l a :
  List.filter isWrite l = [] -> isWrite a = true -> List.filter isWrite (l ++ [a]) = [a].
Proof. intros Hl Ha. rewrite List.filter_app, Hl. simpl. by rewrite Ha. Qed.

End Substitution.



(** ** The passes of [main] *)

Lemma plain_quiet t :
  Forall (fun a => isLog a || isWrite a = true) t ->
  List.filter isServe t = [] /\ List.filter isWatch t = []
  /\ List.filter isDo t = [].
Proof.
  induction 1 as [|a t Ha _ (IH1 & IH2 & IH3)]; [done|].
  destruct a; try done; simpl; auto.
Qed.

Section PassFacts.
Context `{GoLib}.
Variable flags : Flags.
Variable w : World.

(** [updateFile] logs and writes, and does nothing else; it panics only
    if [initEnvMap] does, or if it is handed neither a [FileInfo] nor an
    error. *)
Lemma updateFile_plain path fi err io :
  Forall (fun a => isLog a || isWrite a = true) (updateFile flags w path fi err io).2
  /\ (is_Some (initEnvMap flags w) -> is_Some fi \/ is_Some err ->
      (updateFile flags w path fi err io).1 <> Panic).
Proof.
  unfold updateFile. destruct (initEnvMap flags w) as [envMap|]; simpl.
  2:{ split; [done|]. by intros [? ?]. }
  set (l0 := if bool_decide _ then _ else _).
  assert (Forall (fun a => isLog a || isWrite a = true) l0) as Hl0.
  { subst l0. case_bool_decide; repeat constructor. }
  destruct err as [e|]; simpl; [done|].
  destruct fi as [fi|]; simpl.
  2:{ split; [done|]. intros _ [[? ?]|[? ?]]; done. }
  destruct (fiIsDir fi).
  { destruct (existsb _ _); simpl; split; try done.
    apply Forall_app. split; [done|]. repeat constructor. }
  destruct (Match (filePattern flags) (fiName fi)) as [[|]|]; simpl.
  - destruct (ReadFile io) as [e|read]; simpl.
    + split; [|done]. rewrite !Forall_app. repeat split; try done; repeat constructor.
    + destruct (WriteFile io _ _); simpl.
      * split; [|done]. rewrite !Forall_app. repeat split; try done; repeat constructor.
      * split; [|done]. rewrite !Forall_app. repeat split; try done; repeat constructor.
  - split; [|done]. rewrite !Forall_app. repeat split; try done; repeat constructor.
  - split; [|done]. rewrite !Forall_app. repeat split; try done; repeat constructor.
Qed.

Lemma walkNames_plain (rec : string -> entry -> result * list action) path l :
  Forall (fun c => forall p,
            Forall (fun a => isLog a || isWrite a = true) (rec p c).2
            /\ (is_Some (initEnvMap flags w) -> (rec p c).1 <> Panic)) l ->
  Forall (fun a => isLog a || isWrite a = true) (walkNames rec path l).2
  /\ (is_Some (initEnvMap flags w) -> (walkNames rec path l).1 <> Panic).
Proof.
  induction 1 as [|c l Hc _ [IHt IHr]]; simpl; [done|].
  destruct (Hc (Join path (entryName c))) as [Ht Hr].
  destruct (rec (Join path (entryName c)) c) as [r t]. simpl in Ht, Hr.
  destruct (walkNames rec path l) as [r' t']. simpl in IHt, IHr.
  destruct r as [[err|]|].
  - destruct (stops c err); simpl; [done|]. split; [by apply Forall_app|done].
  - simpl. split; [by apply Forall_app|done].
  - simpl. done.
Qed.

Lemma walk_plain e :
  forall path,
    Forall (fun a => isLog a || isWrite a = true) (walk (updateFile flags w) path e).2
    /\ (is_Some (initEnvMap flags w) -> (walk (updateFile flags w) path e).1 <> Panic).
Proof.
  induction e as [name io|name rderr children IH|name err] using entry_rect_Forall;
    intros path.
  - simpl. destruct (updateFile_plain path
                       (Some {| fiName := name; fiIsDir := false |}) None io)
      as [Ht Hr]. split; [done|]. intros Henv. apply Hr; [done|]. left. by eexists.
  - cbn [walk].
    destruct (updateFile_plain path (Some {| fiName := name; fiIsDir := true |})
                (OsError <$> rderr) dirIO) as [Ht Hr].
    destruct (updateFile flags w path _ (OsError <$> rderr) dirIO) as [r1 t1].
    simpl in Ht, Hr.
    destruct r1 as [err1|].
    2:{ simpl. split; [done|]. intros Henv. apply Hr; [done|]. left. by eexists. }
    destruct rderr as [e|], err1 as [e1|]; simpl; try done.
    destruct (walkNames_plain (walk (updateFile flags w)) path children IH)
      as [Hts Hrs].
    destruct (walkNames _ path children) as [r t]. simpl in Hts, Hrs. simpl.
    split; [by apply Forall_app|done].
  - simpl. destruct (updateFile_plain path None (Some (OsError err)) dirIO)
      as [Ht Hr]. split; [done|]. intros Henv. apply Hr; [done|]. right. by eexists.
Qed.

Lemma Walk_plain root e :
  Forall (fun a => isLog a || isWrite a = true) (Walk (updateFile flags w) root e).2
  /\ (is_Some (initEnvMap flags w) -> (Walk (updateFile flags w) root e).1 <> Panic).
Proof.
  destruct (walk_plain e root) as [Ht Hr]. unfold Walk.
  destruct (walk (updateFile flags w) root e) as [[[[| |]|]|] t]; done.
Qed.

(** A pass over the directories logs and writes, walks once for every
    directory it comes to, and ends with a panic or goes on. *)
Lemma walkVolumes_plain msg ds st :
  exists t,
    trace (walkVolumes flags w msg ds st).2 = trace st ++ t
    /\ Forall (fun a => isLog a || isWrite a = true) t
    /\ watches (walkVolumes flags w msg ds st).2 = watches st
    /\ nreq (walkVolumes flags w msg ds st).2 = nreq st
    /\ ((walkVolumes flags w msg ds st).1 = Continue
        \/ (walkVolumes flags w msg ds st).1 = Crash).
Proof.
  revert st. induction ds as [|d ds IH]; intros st; cbn [walkVolumes].
  - exists []. simpl. rewrite app_nil_r. repeat (split; [done|]). by left.
  - set (st1 := emit _ st).
    destruct (Walk_plain d (Lstat w (nwalk st1) d)) as [Ht _].
    destruct (Walk (updateFile flags w) d (Lstat w (nwalk st1) d)) as [r t].
    simpl in Ht.
    destruct r as [[err|]|].
    + destruct (IH (emit [ALog "Unable to patch files error:" [LErr err]]
                         (walked t st1))) as (t' & E & Ht' & Hw & Hn & Ho).
      exists (ALog (msg +:+ d) [] :: t ++ ALog "Unable to patch files error:" [LErr err] :: t').
      rewrite E, Hw, Hn. simpl. rewrite <- !app_assoc. simpl.
      split; [done|]. split; [|done].
      constructor; [done|]. apply Forall_app. split; [done|]. by constructor.
    + destruct (IH (walked t st1)) as (t' & E & Ht' & Hw & Hn & Ho).
      exists (ALog (msg +:+ d) [] :: t ++ t').
      rewrite E, Hw, Hn. simpl. rewrite <- !app_assoc. simpl.
      split; [done|]. split; [|done].
      constructor; [done|]. by apply Forall_app.
    + exists (ALog (msg +:+ d) [] :: t). simpl. rewrite <- !app_assoc. simpl.
      split; [done|]. split; [by constructor|]. auto.
Qed.

(** When [initEnvMap] does not panic, a pass walks every directory once,
    in the order of the list, and goes on. *)
Lemma walkVolumes_once msg ds st :
  is_Some (initEnvMap flags w) ->
  exists ts st',
    walkVolumes flags w msg ds st = (Continue, st')
    /\ trace st' = trace st ++ concat ts
    /\ nwalk st' = (nwalk st + length ds)%nat
    /\ Forall2 (fun d t =>
         exists n tail,
           t = ALog (msg +:+ d) [] :: (Walk (updateFile flags w) d (Lstat w n d)).2 ++ tail
           /\ Forall (fun a => isLog a = true) tail) ds ts.
Proof.
  intros Henv. revert st. induction ds as [|d ds IH]; intros st; cbn [walkVolumes].
  - exists [], st. simpl. rewrite app_nil_r. split; [done|]. split; [done|].
    split; [lia|constructor].
  - set (st1 := emit _ st).
    destruct (Walk_plain d (Lstat w (nwalk st1) d)) as [_ Hr].
    specialize (Hr Henv). revert Hr.
    destruct (Walk (updateFile flags w) d (Lstat w (nwalk st1) d)) as [r t] eqn:HW.
    simpl. intros Hr.
    destruct r as [[err|]|]; [| |done].
    + destruct (IH (emit [ALog "Unable to patch files error:" [LErr err]]
                         (walked t st1))) as (ts & st' & -> & E & Hn & Hts).
      exists ((ALog (msg +:+ d) [] :: t ++ [ALog "Unable to patch files error:" [LErr err]]) :: ts), st'.
      split; [done|]. rewrite E, Hn. simpl. rewrite <- !app_assoc. simpl.
      split; [done|]. split; [lia|].
      constructor; [|done]. exists (nwalk st1), [ALog "Unable to patch files error:" [LErr err]].
      rewrite HW. split; [done|]. by constructor.
    + destruct (IH (walked t st1)) as (ts & st' & -> & E & Hn & Hts).
      exists ((ALog (msg +:+ d) [] :: t) :: ts), st'.
      split; [done|]. rewrite E, Hn. simpl. rewrite <- !app_assoc. simpl.
      split; [done|]. split; [lia|].
      constructor; [|done]. exists (nwalk st1), []. rewrite HW, app_nil_r. done.
Qed.

Lemma run_unwatched fuel ns o st :
  main flags w initState = (o, st) -> watches st = [] ->
  run flags w fuel ns = Some (o, st).
Proof.
  intros Hmain Hw. unfold run. rewrite Hmain. unfold delivered. rewrite Hw.
  simpl. done.
Qed.

(** C7. In init container mode, with a directory and a webhook given, a
    watcher created, an environment [initEnvMap] does not panic on and a
    delay of 0 to 9223372036 seconds: the process sleeps for the delay,
    walks every directory once, in the order of the flags, and exits with
    code 0; it never calls [http.ListenAndServe] and adds nothing to the
    watcher, so that the goroutine receives nothing. *)
Theorem main_init_container fuel ns :
  runsAsInitContianer flags = true ->
  volumeDirs flags <> [] ->
  webhook flags <> [] ->
  NewWatcherErr w = None ->
  is_Some (initEnvMap flags w) ->
  0 <= initSleepTime flags <= 9223372036 ->
  exists ts st',
    run flags w fuel ns = Some (Exit 0, st')
    /\ trace st'
       = [ANewWatcher; AGo; ASleep (initSleepTime flags * Second)]
         ++ concat ts ++ [ALog "Running as init container" []; AExit 0]
    /\ Forall2 (fun d t =>
         exists n tail,
           t = ALog ("Pre config map updated" +:+ d) []
               :: (Walk (updateFile flags w) d (Lstat w n d)).2 ++ tail
           /\ Forall (fun a => isLog a = true) tail) (volumeDirs flags) ts
    /\ nwalk st' = length (volumeDirs flags)
    /\ List.filter isServe (trace st') = []
    /\ List.filter isWatch (trace st') = []
    /\ watches st' = [].
Proof.
  intros Hinit Hdirs Hhooks Hwatcher Henv Hdelay.
  assert (seconds (initSleepTime flags) = initSleepTime flags * Second) as Hsec.
  { unfold seconds, Second. apply wrap64_id. unfold inInt. lia. }
  set (st0 := Sleep (seconds (initSleepTime flags))
                (emit [AGo] (emit [ANewWatcher] initState))).
  destruct (walkVolumes_once "Pre config map updated" (volumeDirs flags) st0 Henv)
    as (ts & st1 & Hpass & Htrace & Hnwalk & Hts).
  destruct (walkVolumes_plain "Pre config map updated" (volumeDirs flags) st0)
    as (t & Ht & Hplain & Hwatches & _).
  rewrite Hpass in Ht, Hwatches. cbn [snd] in Ht, Hwatches.
  assert (concat ts = t) as Hconcat.
  { rewrite Htrace in Ht. by apply app_inv_head in Ht. }
  assert (main flags w initState
          = (Exit 0, emit [ALog "Running as init container" []; AExit 0] st1))
    as Hmain.
  { unfold main. rewrite !bool_decide_eq_false_2.
    - rewrite Hwatcher, Hinit. fold st0. rewrite Hpass. done.
    - destruct (webhook flags); [done|simpl; lia].
    - destruct (volumeDirs flags); [done|simpl; lia]. }
  exists ts, (emit [ALog "Running as init container" []; AExit 0] st1).
  split; [by apply run_unwatched|].
  assert (trace (emit [ALog "Running as init container" []; AExit 0] st1)
          = [ANewWatcher; AGo; ASleep (initSleepTime flags * Second)]
            ++ concat ts ++ [ALog "Running as init container" []; AExit 0]) as E.
  { simpl. rewrite Htrace. subst st0. simpl. rewrite Hsec. done. }
  split; [exact E|]. split; [exact Hts|]. split; [cbn [nwalk emit]; by rewrite Hnwalk|].
  rewrite E, Hconcat. destruct (plain_quiet t Hplain) as (Hs & Hw & _).
  split; [|split].
  - simpl. rewrite List.filter_app, Hs. done.
  - simpl. rewrite List.filter_app, Hw. done.
  - done.
Qed.

(** C10. Without a webhook the process logs what is missing, prints the
    usage and exits with code 1, before a watcher is created or a
    directory is walked, in init container mode as in the other; and in
    init container mode the process ends, however it ends, without having
    sent a request. *)
Theorem run_needs_webhook fuel ns :
  (webhook flags = [] ->
   exists m,
     run flags w fuel ns
     = Some (Exit 1, emit [ALog m []; ALog "" []; AUsage; AExit 1] initState)
     /\ (m = "Missing volume-dir" \/ m = "Missing webhook-url"))
  /\ (runsAsInitContianer flags = true ->
      exists o st',
        run flags w fuel ns = Some (o, st')
        /\ o <> Continue
        /\ requests (trace st') = 0%nat
        /\ nreq st' = 0%nat).
Proof.
  split.
  - intros Hhooks. unfold run, main. rewrite Hhooks.
    case_bool_decide.
    + exists "Missing volume-dir". split; [done|by left].
    + exists "Missing webhook-url". split; [|by right].
      rewrite bool_decide_eq_true_2 by (simpl; lia). done.
  - intros Hinit.
    destruct (main flags w initState) as [o st'] eqn:Hmain.
    exists o, st'.
    assert (watches st' = [] /\ o <> Continue /\ requests (trace st') = 0%nat
            /\ nreq st' = 0%nat) as (Hw & Ho & Hreq & Hn).
    { revert Hmain. unfold main.
      case_bool_decide; [by intros [= <- <-]|].
      case_bool_decide; [by intros [= <- <-]|].
      destruct (NewWatcherErr w); [by intros [= <- <-]|].
      rewrite Hinit.
      set (st0 := Sleep _ _).
      destruct (walkVolumes_plain "Pre config map updated" (volumeDirs flags) st0)
        as (t & Ht & Hplain & Hwatches & Hnreq & Ho).
      destruct (walkVolumes flags w "Pre config map updated" (volumeDirs flags) st0)
        as [o1 st1].
      cbn [fst snd] in Ht, Hwatches, Hnreq, Ho.
      destruct (plain_quiet t Hplain) as (_ & _ & Hdo).
      assert (requests t = 0%nat) as Hreq by (unfold requests; by rewrite Hdo).
      destruct Ho as [-> | ->]; intros [= <- <-];
        cbn [watches trace nreq emit];
        rewrite Ht, Hwatches, Hnreq, !requests_app, Hreq; done. }
    split; [by apply run_unwatched|done].
Qed.
End PassFacts.

Lemma main_init_container_witness :
  exists st',
    run flagsInit w200 0 [] = Some (Exit 0, st')
    /\ List.filter isSleep (trace st') = [ASleep 2000000000]
    /\ nwalk st' = 1%nat.
Proof.
  destruct (main_init_container flagsInit w200 0 [])
    as (ts & st' & Hrun & Htrace & Hts & Hn & _).
  - reflexivity.
  - done.
  - done.
  - reflexivity.
  - by eexists.
  - simpl. lia.
  - exists st'. split; [exact Hrun|]. split; [|exact Hn].
    vm_compute in Hrun. injection Hrun as <-. vm_compute. reflexivity.
Defined.

Lemma run_needs_webhook_witness :
  run flagsNoHook w200 0 []
  = Some (Exit 1, emit [ALog "Missing webhook-url" []; ALog "" []; AUsage; AExit 1]
                       initState)
  /\ exists st', run flagsInit w200 0 [] = Some (Exit 0, st')
                 /\ requests (trace st') = 0%nat.
Proof.
  destruct (run_needs_webhook flagsNoHook w200 0 []) as [Hnone _].
  destruct (run_needs_webhook flagsInit w200 0 []) as [_ Hinit].
  split.
  - destruct (Hnone eq_refl) as (m & Hrun & [-> | ->]); [|exact Hrun].
    vm_compute in Hrun. discriminate.
  - destruct (Hinit eq_refl) as (o & st' & Hrun & _ & Hreq & _).
    exists st'. split; [|exact Hreq].
    rewrite Hrun. f_equal. f_equal.
    vm_compute in Hrun. by injection Hrun as <- _.
Defined.

(** ** The entries of the environment *)

Lemma prefix_eq_char c s :
  String.prefix "=" (String c s) = bool_decide (c = "="%char).
Proof.
  cbn [String.prefix]. destruct (ascii_dec "=" c) as [<-|Hne].
  - rewrite bool_decide_eq_true_2 by done. by destruct s.
  - rewrite bool_decide_eq_false_2; [done|]. congruence.
Qed.

Lemma index_eq_cons c s :
  String.index 0 "=" (String c s)
  = if bool_decide (c = "="%char) then Some 0%nat
    else S <$> String.index 0 "=" s.
Proof.
  cbn [String.index]. rewrite prefix_eq_char.
  case_bool_decide; [done|]. by destruct (String.index 0 "=" s).
Qed.

Lemma substring_all s : String.substring 0 (String.length s) s = s.
Proof. induction s as [|c s IH]; [done|]. simpl. by rewrite IH. Qed.

Lemma substring_app_l k x :
  String.substring 0 (String.length k) (k +:+ x) = k.
Proof.
  induction k as [|c k IH]; simpl.
  - by destruct x.
  - by rewrite IH.
Qed.

Lemma index_eq_first k v :
  String.index 0 "=" k = None ->
  String.index 0 "=" (k +:+ "=" +:+ v) = Some (String.length k).
Proof.
  induction k as [|c k IH]; intros Hk.
  - change ("" +:+ "=" +:+ v) with (String "=" v). by rewrite index_eq_cons.
  - change (String c k +:+ "=" +:+ v) with (String c (k +:+ "=" +:+ v)).
    rewrite index_eq_cons in *. case_bool_decide; [done|].
    destruct (String.index 0 "=" k); [done|]. by rewrite IH.
Qed.

Lemma index_eq_split e i :
  String.index 0 "=" e = Some i ->
  exists k v,
    e = k +:+ "=" +:+ v /\ String.length k = i /\ String.index 0 "=" k = None.
Proof.
  revert i. induction e as [|c e IH]; intros i; [done|].
  rewrite index_eq_cons. case_bool_decide as Hc.
  - intros [= <-]. subst c. by exists "", e.
  - destruct (String.index 0 "=" e) as [j|]; [|done].
    intros [= <-]. destruct (IH j eq_refl) as (k & v & -> & <- & Hk).
    exists (String c k), v. split; [done|]. split; [done|].
    rewrite index_eq_cons, bool_decide_eq_false_2 by done. by rewrite Hk.
Qed.

Lemma substring_value k v :
  String.substring (String.length k + 1)
    (String.length (k +:+ "=" +:+ v) - (String.length k + 1))
    (k +:+ "=" +:+ v) = v.
Proof.
  induction k as [|c k IH].
  - simpl. rewrite Nat.sub_0_r. apply substring_all.
  - exact IH.
Qed.

(** X1. [strings.SplitN(e, "=", 2)] has two parts exactly when [e] is a
    name without "=", then "=", then a value, and the parts are the name
    and the value; it has one part, [e] itself, exactly when "=" does not
    occur in [e]. *)
Theorem SplitN2_eq_spec e :
  (forall k v,
      GoStrings.SplitN2 e "=" = [k; v]
      <-> e = k +:+ "=" +:+ v /\ String.index 0 "=" k = None)
  /\ (forall a,
        GoStrings.SplitN2 e "=" = [a]
        <-> a = e /\ String.index 0 "=" e = None).
Proof.
  split.
  - intros k v. split.
    + unfold GoStrings.SplitN2.
      destruct (String.index 0 "=" e) as [i|] eqn:Hi; [|done].
      destruct (index_eq_split e i Hi) as (k' & v' & -> & <- & Hk').
      intros [= <- <-]. rewrite substring_app_l.
      change (String.length "=") with 1%nat. by rewrite substring_value.
    + intros [-> Hk]. unfold GoStrings.SplitN2.
      rewrite (index_eq_first k v Hk), substring_app_l.
      change (String.length "=") with 1%nat. by rewrite substring_value.
  - intros a. unfold GoStrings.SplitN2.
    destruct (String.index 0 "=" e) as [i|]; split.
    + done.
    + by intros [_ ?].
    + by intros [= <-].
    + by intros [-> _].
Qed.

Section EnvMore.
Variables (flags : Flags) (w : World).

Lemma envStep_None env e :
  envStep flags env e = None
  <-> String.index 0 "=" e = None /\ GoStrings.HasPrefix e (envPrefix flags) = true.
Proof.
  unfold envStep, GoStrings.SplitN2.
  destruct (String.index 0 "=" e) as [i|]; simpl.
  - destruct (GoStrings.HasPrefix _ _); simpl; split; try done; by intros [? ?].
  - destruct (GoStrings.HasPrefix _ _); simpl; split; try done; by intros [? ?].
Qed.

Lemma envLoop_None l env :
  envLoop flags env l = None
  <-> exists e, e ∈ l /\ String.index 0 "=" e = None
                /\ GoStrings.HasPrefix e (envPrefix flags) = true.
Proof.
  revert env. induction l as [|e l IH]; intros env; simpl.
  - split; [done|]. intros (e & He & _). by apply elem_of_nil in He.
  - destruct (envStep flags env e) as [env'|] eqn:Hstep; simpl.
    + rewrite IH. split.
      * intros (e' & He' & H'). exists e'. split; [by right|done].
      * intros (e' & He' & H'). apply elem_of_cons in He' as [->|He'].
        -- apply (envStep_None env) in H'. congruence.
        -- by exists e'.
    + split; [|done]. intros _. exists e. split; [by left|].
      by apply envStep_None in Hstep.
Qed.

(** X2. [initEnvMap] panics exactly when an entry of the environment
    without "=" starts with the prefix. *)
Theorem initEnvMap_panics_iff :
  initEnvMap flags w = None
  <-> exists e, e ∈ Environ w /\ String.index 0 "=" e = None
                /\ GoStrings.HasPrefix e (envPrefix flags) = true.
Proof. apply envLoop_None. Qed.



End EnvMore.


(** ** More on the walk *)

Section WalkMore.
Context `{GoLib}.
Variable flags : Flags.
Variable w : World.

Lemma isVolume_not_elem path :
  path ∉ volumeDirs flags ->
  existsb (fun d => bool_decide (d = path)) (volumeDirs flags) = false.
Proof.
  intros Hnot. apply not_true_is_false. intros E. apply Hnot.
  by apply isVolume_elem.
Qed.

(** X4. A directory found in a volume whose path is none of [volumeDirs]
    is logged and passed over, whatever it holds, and the walk goes on
    with the names after it. *)
Theorem walkNames_skips_foreign_directory root dname after envMap :
  initEnvMap flags w = Some envMap ->
  Join root dname ∉ volumeDirs flags ->
  exists l,
    List.filter isWrite l = []
    /\ last l = Some (ALog "is not file? %s " [LStr (Join root dname)])
    /\ forall children,
        walkNames (walk (updateFile flags w)) root
                  (Dir dname None children :: after)
        = ((walkNames (walk (updateFile flags w)) root after).1,
           l ++ (walkNames (walk (updateFile flags w)) root after).2).
Proof.
  intros Henv Hnot.
  exists ((if bool_decide (size envMap = 0%nat)
           then [ALog "No environment variable with prefix %s found"
                      [LStr (envPrefix flags)]]
           else [])
          ++ [ALog "is not file? %s " [LStr (Join root dname)]]).
  split; [by case_bool_decide|]. split; [by rewrite last_snoc|].
  intros children. cbn [walkNames walk entryName]. unfold updateFile at 1.
  rewrite Henv. cbn [fmap option_fmap option_map fiIsDir].
  rewrite (isVolume_not_elem _ Hnot). cbn [stops].
  rewrite bool_decide_eq_true_2 by done. cbn [negb].
  by destruct (walkNames _ root after).
Qed.

(** X5. A file whose name does not match the pattern is neither read nor
    written: the walk logs the check and goes on with the names after it,
    whatever reading the file would answer. *)
Theorem walkNames_passes_unmatched_file root name after envMap :
  initEnvMap flags w = Some envMap ->
  Match (filePattern flags) name = Some false ->
  exists l,
    List.filter isWrite l = []
    /\ last l = Some (ALog "Checking file %s mached %v" [LStr name; LBool false])
    /\ forall io,
        walkNames (walk (updateFile flags w)) root (File name io :: after)
        = ((walkNames (walk (updateFile flags w)) root after).1,
           l ++ (walkNames (walk (updateFile flags w)) root after).2).
Proof.
  intros Henv Hm.
  exists ((if bool_decide (size envMap = 0%nat)
           then [ALog "No environment variable with prefix %s found"
                      [LStr (envPrefix flags)]]
           else [])
          ++ [ALog "Checking file %s mached %v" [LStr name; LBool false]]).
  split; [by case_bool_decide|]. split; [by rewrite last_snoc|].
  intros io. cbn [walkNames walk entryName]. unfold updateFile at 1.
  rewrite Henv. cbn [fiIsDir fiName]. rewrite Hm.
  change (default false (Some false)) with false. cbv iota.
  by destruct (walkNames _ root after).
Qed.

(** X6. A pattern [filepath.Match] refuses ends the walk of the directory
    at the first file it is tried on: the file is not read, the names
    after it are not visited, and the walk returns [ErrBadPattern]. *)
Theorem walkNames_ends_at_bad_pattern root name envMap :
  initEnvMap flags w = Some envMap ->
  Match (filePattern flags) name = None ->
  exists l,
    List.filter isWrite l = []
    /\ last l = Some (ALog "Error Reading files from dir" [LErr ErrBadPattern])
    /\ forall io after,
        walkNames (walk (updateFile flags w)) root (File name io :: after)
        = (Ret (Some ErrBadPattern), l).
Proof.
  intros Henv Hm.
  exists (((if bool_decide (size envMap = 0%nat)
            then [ALog "No environment variable with prefix %s found"
                       [LStr (envPrefix flags)]]
            else [])
           ++ [ALog "Checking file %s mached %v" [LStr name; LBool false]])
          ++ [ALog "Error Reading files from dir" [LErr ErrBadPattern]]).
  split; [by case_bool_decide|]. split; [by rewrite last_snoc|].
  intros io after. cbn [walkNames walk entryName]. unfold updateFile at 1.
  rewrite Henv. cbn [fiIsDir fiName]. rewrite Hm. reflexivity.
Qed.

(** X7. A volume directory [Lstat] fails on: the walk hands the error to
    [updateFile], which returns it; nothing is written, the pass logs
    the error and goes on with the next directory. *)
Theorem walkVolumes_missing_directory msg d ds st name err envMap :
  initEnvMap flags w = Some envMap ->
  Lstat w (nwalk st) d = NoStat name err ->
  exists l,
    List.filter isWrite l = []
    /\ Walk (updateFile flags w) d (NoStat name err) = (Ret (Some (OsError err)), l)
    /\ walkVolumes flags w msg (d :: ds) st
       = walkVolumes flags w msg ds
           (emit [ALog "Unable to patch files error:" [LErr (OsError err)]]
                 (walked l (emit [ALog (msg +:+ d) []] st))).
Proof.
  intros Henv Hstat.
  exists (if bool_decide (size envMap = 0%nat)
          then [ALog "No environment variable with prefix %s found"
                     [LStr (envPrefix flags)]]
          else []).
  split; [by case_bool_decide|].
  assert (Walk (updateFile flags w) d (NoStat name err)
          = (Ret (Some (OsError err)),
             if bool_decide (size envMap = 0%nat)
             then [ALog "No environment variable with prefix %s found"
                        [LStr (envPrefix flags)]]
             else [])) as HW.
  { unfold Walk. cbn [walk]. unfold updateFile. rewrite Henv. done. }
  split; [exact HW|].
  cbn [walkVolumes]. change (nwalk (emit _ st)) with (nwalk st).
  rewrite Hstat, HW. done.
Qed.

(** When [initEnvMap] panics, so does every walk, at its first call of
    [updateFile]. *)
Lemma Walk_panics root e :
  initEnvMap flags w = None -> Walk (updateFile flags w) root e = (Panic, []).
Proof.
  intros Henv. unfold Walk.
  assert (forall path fi err io, updateFile flags w path fi err io = (Panic, []))
    as Hu by (intros; unfold updateFile; by rewrite Henv).
  destruct e; cbn [walk]; by rewrite Hu.
Qed.

(** X8. With a directory and a webhook given and a watcher created, an
    environment [initEnvMap] panics on ends the process with a panic in
    the first walk of the first pass: nothing has been written, no
    directory is watched, the server is not started and no request is
    sent; in init container mode the sleep has been made before. *)
Theorem main_panics_on_environment fuel ns d ds :
  initEnvMap flags w = None ->
  volumeDirs flags = d :: ds ->
  webhook flags <> [] ->
  NewWatcherErr w = None ->
  exists st',
    run flags w fuel ns = Some (Crash, st')
    /\ trace st'
       = [ANewWatcher; AGo]
         ++ (if runsAsInitContianer flags
             then [ASleep (seconds (initSleepTime flags))] else [])
         ++ [ALog ("Pre config map updated" +:+ d) []]
    /\ nwalk st' = 1%nat /\ nreq st' = 0%nat /\ watches st' = [].
Proof.
  intros Henv Hdirs Hhooks Hwatcher.
  assert (exists st',
             main flags w initState = (Crash, st')
             /\ trace st'
                = [ANewWatcher; AGo]
                  ++ (if runsAsInitContianer flags
                      then [ASleep (seconds (initSleepTime flags))] else [])
                  ++ [ALog ("Pre config map updated" +:+ d) []]
             /\ nwalk st' = 1%nat /\ nreq st' = 0%nat /\ watches st' = [])
    as (st' & Hmain & Ht & Hn & Hr & Hw).
  { unfold main. rewrite Hdirs.
    rewrite (bool_decide_eq_false_2 (length (d :: ds) < 1)%nat) by (simpl; lia).
    rewrite bool_decide_eq_false_2
      by (destruct (webhook flags); [done|simpl; lia]).
    rewrite Hwatcher. cbn [walkVolumes]. rewrite Walk_panics by done.
    eexists. split; [reflexivity|].
    destruct (runsAsInitContianer flags); done. }
  exists st'. split; [by apply run_unwatched|done].
Qed.

(** X9. After an event that passes the filter, an environment
    [initEnvMap] panics on ends the goroutine, and with it the process,
    in the first walk: no request is sent for the event. *)
Theorem handle_panics_on_environment fuel event st d ds :
  initEnvMap flags w = None ->
  volumeDirs flags = d :: ds ->
  isValidEvent event = true ->
  exists st',
    handle flags w fuel (OnEvent event) st = Some (Crash, st')
    /\ trace st' = trace st ++ [ALog ("config map updated" +:+ d) []]
    /\ nreq st' = nreq st.
Proof.
  intros Henv Hdirs Hvalid. unfold handle. rewrite Hvalid, Hdirs.
  cbn [negb walkVolumes]. rewrite Walk_panics by done.
  eexists. split; [reflexivity|]. simpl. by rewrite app_nil_r.
Qed.
End WalkMore.

Lemma walkNames_skips_foreign_directory_witness :
  walkNames (walk (updateFile flags1 wFoo)) "/etc/config"
            [Dir "sub" None [plainFile "b.yml" "b: 1"]]
  = walkNames (walk (updateFile flags1 wFoo)) "/etc/config" [Dir "sub" None []].
Proof.
  destruct (walkNames_skips_foreign_directory flags1 wFoo "/etc/config" "sub" []
              {["CFM_FOO" := "bar"]}) as (l & _ & _ & Hskip).
  - vm_compute. reflexivity.
  - intros Hin. apply list_elem_of_singleton in Hin. discriminate.
  - rewrite (Hskip [plainFile "b.yml" "b: 1"]), (Hskip []). reflexivity.
Defined.

Lemma walkNames_passes_unmatched_file_witness :
  walkNames (walk (updateFile flags1 wFoo)) "/etc/config"
            [plainFile "notes.txt" "CFM_FOO"]
  = walkNames (walk (updateFile flags1 wFoo)) "/etc/config" [unreadable "notes.txt"].
Proof.
  destruct (walkNames_passes_unmatched_file flags1 wFoo "/etc/config" "notes.txt" []
              {["CFM_FOO" := "bar"]}) as (l & _ & _ & Hpass).
  - vm_compute. reflexivity.
  - reflexivity.
  - unfold plainFile, unreadable. rewrite !Hpass. reflexivity.
Defined.

Lemma walkNames_ends_at_bad_pattern_witness :
  walkNames (H := libBad)
    (walk (H := libBad) (updateFile (H := libBad) (withPattern "[" flags1) wFoo))
    "/etc/config" [plainFile "a.yml" "a: 1"; plainFile "b.yml" "b: 1"]
  = walkNames (H := libBad)
      (walk (H := libBad) (updateFile (H := libBad) (withPattern "[" flags1) wFoo))
      "/etc/config" [unreadable "a.yml"].
Proof.
  destruct (walkNames_ends_at_bad_pattern (H := libBad) (withPattern "[" flags1)
              wFoo "/etc/config" "a.yml" {["CFM_FOO" := "bar"]})
    as (l & _ & _ & Hend).
  - vm_compute. reflexivity.
  - reflexivity.
  - unfold plainFile, unreadable. rewrite !Hend. reflexivity.
Defined.

Lemma walkVolumes_missing_directory_witness :
  (walkVolumes flags1 wMissing "Pre config map updated" ["/etc/config"] initState).1
  = Continue.
Proof.
  destruct (walkVolumes_missing_directory flags1 wMissing "Pre config map updated"
              "/etc/config" [] initState "config" "no such file or directory" ∅)
    as (l & _ & _ & Hgo).
  - reflexivity.
  - reflexivity.
  - rewrite Hgo. reflexivity.
Defined.

Lemma main_panics_on_environment_witness :
  exists st', run flags1 wBroken 0 [] = Some (Crash, st') /\ nwalk st' = 1%nat.
Proof.
  destruct (main_panics_on_environment flags1 wBroken 0 [] "/etc/config" [])
    as (st' & Hrun & _ & Hn & _).
  - reflexivity.
  - reflexivity.
  - done.
  - reflexivity.
  - by exists st'.
Defined.

Lemma handle_panics_on_environment_witness :
  exists st',
    handle flags1 wBroken 0
      (OnEvent {| Fsnotify.Name := "/etc/config/..data"; Fsnotify.Op := 1 |})
      initState = Some (Crash, st')
    /\ nreq st' = 0%nat.
Proof.
  destruct (handle_panics_on_environment flags1 wBroken 0
              {| Fsnotify.Name := "/etc/config/..data"; Fsnotify.Op := 1 |}
              initState "/etc/config" [])
    as (st' & Hrun & _ & Hn).
  - reflexivity.
  - reflexivity.
  - reflexivity.
  - by exists st'.
Defined.

(** ** A reload that succeeds *)

Section ReloadFacts.
Context `{GoLib}.
Variable flags : Flags.
Variable w : World.

Lemma failedRound_now h req retries st :
  now (failedRound flags w h req retries st)
  = now st + (Do w (nreq st) req).1 + Second * 10.
Proof.
  unfold failedRound.
  change (nreq (announce flags retries st)) with (nreq st).
  by destruct (Do w (nreq st) req) as [t [err|code]].
Qed.

Lemma failedRound_successes h req retries st :
  successReloads (metrics (failedRound flags w h req retries st))
  = successReloads (metrics st).
Proof.
  unfold failedRound.
  change (nreq (announce flags retries st)) with (nreq st).
  by destruct (Do w (nreq st) req) as [t [err|code]].
Qed.

Lemma retryLoop_succeeds_after h req begun k :
  forall fuel retries st,
    inInt retries ->
    Z.of_nat k < rounds retries ->
    (k < fuel)%nat ->
    (forall i, (nreq st <= i < nreq st + k)%nat -> succeeds flags w req i = false) ->
    succeeds flags w req (nreq st + k) = true ->
    exists st' new,
      retryLoop flags w fuel h req begun retries st = Some (true, st')
      /\ trace st' = trace st ++ new
      /\ wire new = mjoin (replicate k [ADo req; ASleep (Second * 10)]) ++ [ADo req]
      /\ last new = Some (ALog "successfully triggered reload" [])
      /\ now st' = now st + took w req (nreq st) (S k) + Z.of_nat k * (Second * 10)
      /\ requestDuration (metrics st') !! URLString h = Some (now st' - begun)
      /\ lastReloadError (metrics st') !! URLString h = Some 0
      /\ successReloads (metrics st') !! URLString h
         = Some (S (default 0%nat (successReloads (metrics st) !! URLString h)))
      /\ requestErrorsByReason (metrics st') !! (URLString h, "retries_exhausted")
         = requestErrorsByReason (metrics st) !! (URLString h, "retries_exhausted").
Proof.
  induction k as [|k IH]; intros fuel retries st Hin Hk Hfuel Hfail Hok.
  - destruct fuel as [|fuel]; [lia|].
    assert (retries <> 0) as Hne by (intros ->; by change (rounds 0) with 0 in Hk).
    rewrite Nat.add_0_r in Hok. unfold succeeds in Hok.
    cbn [retryLoop]. rewrite (proj2 (Z.eqb_neq _ _) Hne).
    change (nreq (announce flags retries st)) with (nreq st).
    cbn [took]. destruct (Do w (nreq st) req) as [t [err|code]]; [done|].
    cbn [snd fst] in *. rewrite Hok. cbn [negb].
    eexists _, [_; _; _]. split; [reflexivity|].
    split; [simpl; by rewrite <- !app_assoc|].
    split; [done|]. split; [done|]. split; [simpl; lia|].
    split; [simpl; by rewrite lookup_insert_eq|].
    split; [simpl; by rewrite lookup_insert_eq|].
    split; [simpl; unfold Inc; by rewrite lookup_insert_eq|]. done.
  - destruct fuel as [|fuel]; [lia|].
    assert (retries <> 0) as Hne.
    { intros ->. change (rounds 0) with 0 in Hk. lia. }
    rewrite retryLoop_failed by (try done; apply Hfail; lia).
    destruct (IH fuel (wrap64 (retries - 1)) (failedRound flags w h req retries st))
      as (st' & new & -> & Ht & Hw & Hlast & Hnow & Hdur & Herr & Hsucc & Hex).
    { apply wrap64_range. }
    { rewrite rounds_pred by done. lia. }
    { lia. }
    { intros i Hi. rewrite failedRound_nreq in Hi. apply Hfail. lia. }
    { rewrite failedRound_nreq. by replace (S (nreq st) + k)%nat
        with (nreq st + S k)%nat by lia. }
    destruct (failedRound_trace flags w h req retries st) as (l1 & l2 & Hft & W1 & W2).
    exists st', (l1 ++ [ADo req] ++ l2 ++ [ASleep (Second * 10)] ++ new).
    split; [done|].
    split; [rewrite Ht, Hft; by rewrite <- !app_assoc|].
    split.
    { rewrite !wire_app, W1, W2, Hw. reflexivity. }
    split.
    { rewrite !app_assoc. rewrite last_app, Hlast. done. }
    split.
    { rewrite Hnow, failedRound_now, failedRound_nreq.
      cbn [took]. lia. }
    split; [done|]. split; [done|].
    split; [by rewrite Hsucc, failedRound_successes|].
    rewrite Hex. by apply failedRound_errors.
Qed.

(** X10. When the first [k] requests for a webhook fail and the next one
    is answered with the expected status code, within the retry count and
    the fuel: the work on the webhook ends after [k + 1] requests, a sleep
    of ten seconds after each of the first [k]; the gauge of the last
    reload error is 0, the counter of the successful reloads has gone up
    by one, the webhook is not counted as [retries_exhausted], and the
    gauge of the duration holds all the time since the work on the webhook
    began: that of the requests and that of the sleeps. *)
Theorem notify_succeeds_after_failures h req st fuel k :
  webhookRequest flags h = inr req ->
  inInt (webhookRetries flags) ->
  Z.of_nat k < rounds (webhookRetries flags) ->
  (k < fuel)%nat ->
  (forall i, (nreq st <= i < nreq st + k)%nat -> succeeds flags w req i = false) ->
  succeeds flags w req (nreq st + k) = true ->
  exists st' new,
    notify flags w fuel h st = Some st'
    /\ trace st' = trace st ++ new
    /\ wire new = mjoin (replicate k [ADo req; ASleep (Second * 10)]) ++ [ADo req]
    /\ last new = Some (ALog "successfully triggered reload" [])
    /\ requestDuration (metrics st') !! URLString h
       = Some (took w req (nreq st) (S k) + Z.of_nat k * (Second * 10))
    /\ lastReloadError (metrics st') !! URLString h = Some 0
    /\ successReloads (metrics st') !! URLString h
       = Some (S (default 0%nat (successReloads (metrics st) !! URLString h)))
    /\ requestErrorsByReason (metrics st') !! (URLString h, "retries_exhausted")
       = requestErrorsByReason (metrics st) !! (URLString h, "retries_exhausted").
Proof.
  intros Hreq Hin Hk Hfuel Hfail Hok.
  destruct (retryLoop_succeeds_after h req (now st) k fuel (webhookRetries flags) st
              Hin Hk Hfuel Hfail Hok)
    as (st' & new & Hloop & Ht & Hw & Hlast & Hnow & Hdur & Herr & Hsucc & Hex).
  exists st', new.
  split; [unfold notify; by rewrite Hreq, Hloop|].
  split; [done|]. split; [done|]. split; [done|].
  split; [rewrite Hdur, Hnow; f_equal; ring|]. done.
Qed.
End ReloadFacts.

Lemma notify_succeeds_after_failures_witness :
  exists st',
    notify flags3 wFlaky 2 hook initState = Some st'
    /\ requestDuration (metrics st') !! URLString hook = Some 10002000000
    /\ lastReloadError (metrics st') !! URLString hook = Some 0.
Proof.
  destruct (notify_succeeds_after_failures flags3 wFlaky hook
              {| Method := "POST"; ReqURL := URLString hook; Header := ∅ |}
              initState 2 1)
    as (st' & new & Hrun & _ & _ & _ & Hdur & Herr & _).
  - reflexivity.
  - vm_compute. split; [discriminate|reflexivity].
  - vm_compute. reflexivity.
  - lia.
  - intros i Hi. assert (i = 0%nat) as -> by (simpl in Hi; lia). reflexivity.
  - reflexivity.
  - exists st'. split; [exact Hrun|]. split; [exact Hdur|exact Herr].
Defined.

(** ** The webhooks of one event *)

Lemma filter_isDo_wire l : List.filter isDo (wire l) = List.filter isDo l.
Proof.
  unfold wire. induction l as [|a l IH]; [done|].
  destruct a; simpl; by rewrite ?IH.
Qed.

Lemma filter_isDo_rounds req d n :
  List.filter isDo (mjoin (replicate n [ADo req; ASleep d])) = replicate n (ADo req).
Proof. induction n as [|n IH]; [done|]. simpl. by rewrite IH. Qed.

Section DispatchFacts.
Context `{GoLib}.
Variable flags : Flags.
Variable w : World.

(** X11. When no request is ever answered with the expected status code,
    with a retry count that is not negative and fuel for it: the webhooks
    are worked on one after the other, in the order of the flags, and each
    one whose request can be created is sent as many requests as the
    retry count says, whatever became of the webhooks before it. *)
Theorem notifyAll_tries_every_webhook hs st fuel :
  0 <= webhookRetries flags < 2 ^ 63 ->
  webhookRetries flags <= Z.of_nat fuel ->
  (forall req i, succeeds flags w req i = false) ->
  exists st' new,
    notifyAll flags w fuel hs st = Some st'
    /\ trace st' = trace st ++ new
    /\ List.filter isDo new
       = hs ≫= (fun h => match webhookRequest flags h with
                          | inr req =>
                              replicate (Z.to_nat (webhookRetries flags)) (ADo req)
                          | inl _ => []
                          end).
Proof.
  intros Hr Hfuel Hfail. revert st.
  induction hs as [|h hs IH]; intros st.
  - exists st, []. simpl. by rewrite app_nil_r.
  - cbn [notifyAll]. unfold notify.
    destruct (webhookRequest flags h) as [err|req] eqn:Hreq.
    + destruct (IH (emit [ALog "error:" [LErr (OsError err)]]
                      (withMetrics (setFailureMetrics (URLString h)
                                      "client_request_create") st)))
        as (st' & new & Hrun & Ht & Hdo).
      exists st', (ALog "error:" [LErr (OsError err)] :: new).
      split; [exact Hrun|]. split; [rewrite Ht; simpl; by rewrite <- app_assoc|].
      cbn [mbind list_bind]. rewrite Hreq; simpl. exact Hdo.
    + destruct (retryLoop_never_success flags w h req (now st) fuel
                  (webhookRetries flags) st) as [_ Hsome].
      { unfold inInt. lia. }
      { intros i _. apply Hfail. }
      rewrite rounds_nonneg in Hsome by done.
      destruct (Hsome Hfuel) as (st1 & Hloop & _ & _ & new1 & Ht1 & Hw1).
      cbv zeta. rewrite Hloop. cbn [mbind option_bind negb].
      destruct (IH (exhausted h st1)) as (st' & new & Hrun & Ht & Hdo).
      exists st', (new1 ++ ALog "error:" [LStr "Webhook reload retries exhausted"] :: new).
      split; [exact Hrun|].
      split.
      { rewrite Ht. simpl. rewrite Ht1. by rewrite <- !app_assoc. }
      cbn [mbind list_bind]. rewrite Hreq.
      rewrite List.filter_app. simpl. rewrite Hdo.
      by rewrite <- filter_isDo_wire, Hw1, filter_isDo_rounds.
Qed.

(** The retry loop logs, sends requests and sleeps; it walks nothing. *)
Lemma retryLoop_quiet fuel h req begun :
  forall retries st ok st',
    retryLoop flags w fuel h req begun retries st = Some (ok, st') ->
    exists new,
      trace st' = trace st ++ new /\ List.filter isWrite new = []
      /\ nwalk st' = nwalk st
      /\ requests new = (nreq st' - nreq st)%nat /\ (nreq st <= nreq st')%nat.
Proof.
  induction fuel as [|fuel IH]; intros retries st ok st'; cbn [retryLoop].
  - destruct (retries =? 0); [|done]. intros [= <- <-].
    exists []. rewrite app_nil_r. unfold requests. simpl. repeat split; lia.
  - destruct (retries =? 0).
    { intros [= <- <-]. exists []. rewrite app_nil_r. unfold requests. simpl.
      repeat split; lia. }
    change (nreq (announce flags retries st)) with (nreq st).
    destruct (Do w (nreq st) req) as [t [err|code]].
    + intros Hrun. apply IH in Hrun as (new & Ht & Hw & Hn & Hreq & Hle).
      simpl in Ht, Hn, Hreq, Hle.
      eexists ([_; _; _; _] ++ new). split.
      { rewrite Ht. rewrite <- !app_assoc. reflexivity. }
      split; [by rewrite List.filter_app, Hw|]. split; [done|].
      rewrite requests_app, Hreq. unfold requests at 1. simpl. lia.
    + destruct (negb (code =? webhookStatusCode flags)).
      * intros Hrun. apply IH in Hrun as (new & Ht & Hw & Hn & Hreq & Hle).
        simpl in Ht, Hn, Hreq, Hle.
        eexists ([_; _; _; _] ++ new). split.
        { rewrite Ht. rewrite <- !app_assoc. reflexivity. }
        split; [by rewrite List.filter_app, Hw|]. split; [done|].
        rewrite requests_app, Hreq. unfold requests at 1. simpl. lia.
      * intros [= <- <-]. eexists [_; _; _]. simpl. split.
        { rewrite <- !app_assoc. reflexivity. }
        unfold requests. simpl. repeat split; lia.
Qed.

Lemma notifyAll_quiet fuel hs :
  forall st st',
    notifyAll flags w fuel hs st = Some st' ->
    exists new,
      trace st' = trace st ++ new /\ List.filter isWrite new = []
      /\ nwalk st' = nwalk st
      /\ requests new = (nreq st' - nreq st)%nat /\ (nreq st <= nreq st')%nat.
Proof.
  induction hs as [|h hs IH]; intros st st'; cbn [notifyAll].
  - intros [= <-]. exists []. rewrite app_nil_r. unfold requests. simpl.
    repeat split; lia.
  - unfold notify. destruct (webhookRequest flags h) as [err|req].
    + cbn [mbind option_bind]. intros Hrun.
      apply IH in Hrun as (new & Ht & Hw & Hn & Hreq & Hle).
      simpl in Ht, Hn, Hreq, Hle.
      exists (ALog "error:" [LErr (OsError err)] :: new).
      split; [rewrite Ht; by rewrite <- app_assoc|].
      split; [done|]. split; [done|]. split; [|done].
      rewrite <- Hreq. done.
    + destruct (retryLoop flags w fuel h req (now st) (webhookRetries flags) st)
        as [[ok st1]|] eqn:Hloop; [|done].
      apply retryLoop_quiet in Hloop as (new1 & Ht1 & Hw1 & Hn1 & Hreq1 & Hle1).
      cbn [mbind option_bind]. destruct ok; cbn [negb]; intros Hrun;
        apply IH in Hrun as (new & Ht & Hw & Hn & Hreq & Hle).
      * exists (new1 ++ new).
        split; [rewrite Ht, Ht1; by rewrite <- app_assoc|].
        split; [by rewrite List.filter_app, Hw1, Hw|].
        split; [congruence|]. rewrite requests_app. lia.
      * simpl in Ht, Hn, Hreq, Hle.
        exists (new1 ++ ALog "error:" [LStr "Webhook reload retries exhausted"] :: new).
        split; [rewrite Ht, Ht1; by rewrite <- !app_assoc|].
        split; [rewrite List.filter_app, Hw1; simpl; exact Hw|].
        split; [congruence|]. rewrite requests_app.
        change (requests (ALog "error:" [LStr "Webhook reload retries exhausted"] :: new))
          with (requests new). lia.
Qed.

(** X12. After an event that passes the filter, the walks of all the
    directories come before the first request: what is added to the trace
    is a part without requests followed by a part without writes, and the
    requests are made only if no walk panicked. When [initEnvMap] does not
    panic, every directory has been walked once. *)
Theorem handle_walks_before_requests fuel event st o st' :
  isValidEvent event = true ->
  handle flags w fuel (OnEvent event) st = Some (o, st') ->
  exists tw tn,
    trace st' = trace st ++ tw ++ tn
    /\ List.filter isDo tw = []
    /\ List.filter isWrite tn = []
    /\ requests tn = (nreq st' - nreq st)%nat
    /\ (o = Continue \/ o = Crash /\ tn = [])
    /\ (is_Some (initEnvMap flags w) ->
        o = Continue /\ nwalk st' = (nwalk st + length (volumeDirs flags))%nat).
Proof.
  intros Hvalid. unfold handle. rewrite Hvalid. cbn [negb].
  destruct (walkVolumes_plain flags w "config map updated" (volumeDirs flags) st)
    as (tw & Htw & Hplain & _ & Hnreq & Ho).
  destruct (plain_quiet tw Hplain) as (_ & _ & Hdo).
  destruct (walkVolumes flags w "config map updated" (volumeDirs flags) st)
    as [o1 st1] eqn:Hpass.
  cbn [fst snd] in Htw, Hnreq, Ho.
  destruct Ho as [-> | ->].
  - destruct (notifyAll flags w fuel (webhook flags) st1) as [st2|] eqn:Hall; [|done].
    cbn [mbind option_bind]. intros [= <- <-].
    apply notifyAll_quiet in Hall as (tn & Htn & Hw & Hn & Hreq & Hle).
    exists tw, tn. split; [rewrite Htn, Htw; by rewrite <- app_assoc|].
    split; [done|]. split; [done|]. split; [by rewrite Hreq, Hnreq|].
    split; [by left|]. intros Henv. split; [done|].
    destruct (walkVolumes_once flags w "config map updated" (volumeDirs flags) st Henv)
      as (ts & st1' & Hpass' & _ & Hnw & _).
    rewrite Hpass in Hpass'. injection Hpass' as <-. by rewrite Hn.
  - intros [= <- <-]. exists tw, []. rewrite app_nil_r.
    split; [done|]. split; [done|]. split; [done|].
    split; [rewrite Hnreq; unfold requests; simpl; lia|].
    split; [by right|]. intros Henv.
    destruct (walkVolumes_once flags w "config map updated" (volumeDirs flags) st Henv)
      as (ts & st1' & Hpass' & _).
    rewrite Hpass in Hpass'. done.
Qed.

End DispatchFacts.

Lemma notifyAll_tries_every_webhook_witness :
  exists st',
    notifyAll flags3 w500 3 [hook; hook] initState = Some st'
    /\ requests (trace st') = 6%nat.
Proof.
  destruct (notifyAll_tries_every_webhook flags3 w500 [hook; hook] initState 3)
    as (st' & new & Hrun & Ht & Hdo).
  - vm_compute. split; [discriminate|reflexivity].
  - vm_compute. discriminate.
  - intros req i. reflexivity.
  - exists st'. split; [exact Hrun|]. rewrite Ht. unfold requests.
    rewrite List.filter_app, Hdo. reflexivity.
Defined.

Lemma handle_walks_before_requests_witness :
  exists tw tn,
    List.filter isWrite tw
    = [AWriteFile "/etc/prometheus-updated/a.yml" (bytes_of "a: bar") 438 None]
    /\ List.filter isDo tw = []
    /\ requests tn = 1%nat /\ List.filter isWrite tn = [].
Proof.
  destruct (handle flags1 wFoo 1
              (OnEvent {| Fsnotify.Name := "/etc/config/..data"; Fsnotify.Op := 1 |})
              initState) as [[o st']|] eqn:Hrun; [|vm_compute in Hrun; discriminate].
  destruct (handle_walks_before_requests flags1 wFoo 1
              {| Fsnotify.Name := "/etc/config/..data"; Fsnotify.Op := 1 |}
              initState o st')
    as (tw & tn & Ht & Hdo & Hw & Hreq & _ & _).
  - reflexivity.
  - exact Hrun.
  - exists tw, tn. vm_compute in Hrun. injection Hrun as <- <-.
    cbn [trace initState app] in Ht. cbn [nreq initState] in Hreq.
    split; [|done].
    assert (List.filter isWrite (tw ++ tn)
            = [AWriteFile "/etc/prometheus-updated/a.yml" (bytes_of "a: bar") 438 None])
      as E by (rewrite <- Ht; vm_compute; reflexivity).
    rewrite List.filter_app, Hw, app_nil_r in E. exact E.
Defined.


(** ** [main] outside init container mode *)

Section ServeFacts.
Context `{GoLib}.
Variable flags : Flags.
Variable w : World.

(** The loop that adds the directories to the watcher goes through the
    directories [watcher.Add] accepts and ends the process at the first
    one it refuses. *)
Lemma addWatches_accepted ds st :
  (forall d, d ∈ ds -> WatcherAddErr w d = None) ->
  exists st',
    addWatches w ds st = (Continue, st')
    /\ trace st'
       = trace st ++ (ds ≫= fun d => [ALog "Watching directory: %q" [LStr d];
                                      AWatcherAdd d])
    /\ watches st' = watches st ++ ds
    /\ nwalk st' = nwalk st /\ nreq st' = nreq st.
Proof.
  revert st. induction ds as [|d ds IH]; intros st Hok; cbn [addWatches].
  - exists st. simpl. by rewrite !app_nil_r.
  - rewrite Hok by (by left).
    destruct (IH (watching d (emit [ALog "Watching directory: %q" [LStr d];
                                    AWatcherAdd d] st)))
      as (st' & -> & Ht & Hw & Hn & Hr).
    { intros d' Hd'. apply Hok. by right. }
    exists st'. split; [done|]. rewrite Ht, Hw, Hn, Hr. simpl.
    by rewrite <- !app_assoc.
Qed.

Lemma addWatches_refused before d after err st :
  (forall d', d' ∈ before -> WatcherAddErr w d' = None) ->
  WatcherAddErr w d = Some err ->
  exists st',
    addWatches w (before ++ d :: after) st = (Exit 1, st')
    /\ trace st'
       = trace st
         ++ (before ≫= fun d => [ALog "Watching directory: %q" [LStr d];
                                 AWatcherAdd d])
         ++ [ALog "Watching directory: %q" [LStr d]; AWatcherAdd d;
             ALog "" [LErr (OsError err)]; AExit 1]
    /\ watches st' = watches st ++ before
    /\ nwalk st' = nwalk st /\ nreq st' = nreq st.
Proof.
  revert st. induction before as [|b before IH]; intros st Hok Herr;
    cbn [app addWatches].
  - rewrite Herr. eexists. split; [reflexivity|]. simpl.
    by rewrite <- !app_assoc, app_nil_r.
  - rewrite Hok by (by left).
    destruct (IH (watching b (emit [ALog "Watching directory: %q" [LStr b];
                                    AWatcherAdd b] st)))
      as (st' & -> & Ht & Hw & Hn & Hr); [|done|].
    { intros d' Hd'. apply Hok. by right. }
    exists st'. split; [done|]. rewrite Ht, Hw, Hn, Hr. simpl.
    by rewrite <- !app_assoc.
Qed.

Lemma main_first_pass st :
  volumeDirs flags <> [] -> webhook flags <> [] ->
  NewWatcherErr w = None ->
  runsAsInitContianer flags = false ->
  main flags w st
  = let '(o, st1) := walkVolumes flags w "Pre config map updated" (volumeDirs flags)
                       (emit [AGo] (emit [ANewWatcher] st)) in
    match o with
    | Continue =>
        let '(o, st2) := addWatches w (volumeDirs flags) st1 in
        match o with
        | Continue =>
            let st3 := emit [AListenAndServe (listenAddress flags)
                                             (metricPath flags)] st2 in
            match ListenAndServeErr w with
            | Some err => (Exit 1, emit [ALog "" [LErr (OsError err)]; AExit 1] st3)
            | None => (Continue, st3)
            end
        | _ => (o, st2)
        end
    | _ => (o, st1)
    end.
Proof.
  intros Hdirs Hhooks Hwatcher Hinit. unfold main.
  rewrite !bool_decide_eq_false_2.
  - by rewrite Hwatcher, Hinit.
  - destruct (webhook flags); [done|simpl; lia].
  - destruct (volumeDirs flags); [done|simpl; lia].
Qed.

(** The steps of [main] outside init container mode, when nothing fails
    before the metrics are served. *)
Lemma main_serves :
  runsAsInitContianer flags = false ->
  volumeDirs flags <> [] ->
  webhook flags <> [] ->
  NewWatcherErr w = None ->
  is_Some (initEnvMap flags w) ->
  (forall d, d ∈ volumeDirs flags -> WatcherAddErr w d = None) ->
  exists ts st',
    main flags w initState
    = (match ListenAndServeErr w with Some _ => Exit 1 | None => Continue end, st')
    /\ trace st'
       = [ANewWatcher; AGo] ++ concat ts
         ++ (volumeDirs flags ≫= fun d => [ALog "Watching directory: %q" [LStr d];
                                           AWatcherAdd d])
         ++ [AListenAndServe (listenAddress flags) (metricPath flags)]
         ++ match ListenAndServeErr w with
            | Some err => [ALog "" [LErr (OsError err)]; AExit 1]
            | None => []
            end
    /\ Forall2 (fun d t =>
         exists n tail,
           t = ALog ("Pre config map updated" +:+ d) []
               :: (Walk (updateFile flags w) d (Lstat w n d)).2 ++ tail
           /\ Forall (fun a => isLog a = true) tail) (volumeDirs flags) ts
    /\ Forall (fun a => isLog a || isWrite a = true) (concat ts)
    /\ watches st' = volumeDirs flags
    /\ nwalk st' = length (volumeDirs flags)
    /\ nreq st' = 0%nat.
Proof.
  intros Hinit Hdirs Hhooks Hwatcher Henv Hadd.
  rewrite main_first_pass by done.
  set (st0 := emit [AGo] (emit [ANewWatcher] initState)).
  destruct (walkVolumes_once flags w "Pre config map updated" (volumeDirs flags) st0 Henv)
    as (ts & st1 & Hpass & Htrace & Hnwalk & Hts).
  destruct (walkVolumes_plain flags w "Pre config map updated" (volumeDirs flags) st0)
    as (t & Ht & Hplain & Hwatches & Hnreq & _).
  rewrite Hpass in Ht, Hwatches, Hnreq. cbn [snd] in Ht, Hwatches, Hnreq.
  assert (concat ts = t) as Hconcat.
  { rewrite Htrace in Ht. by apply app_inv_head in Ht. }
  rewrite Hpass.
  destruct (addWatches_accepted (volumeDirs flags) st1 Hadd)
    as (st2 & -> & Ht2 & Hw2 & Hn2 & Hr2).
  exists ts.
  destruct (ListenAndServeErr w) as [err|]; eexists; (split; [reflexivity|]);
    cbn [trace emit watches nwalk nreq];
    rewrite Ht2, Hw2, Hn2, Hr2, Htrace, Hwatches, Hnwalk, Hnreq, Hconcat;
    subst st0; simpl; rewrite <- ?app_assoc; simpl; rewrite ?app_nil_r;
    rewrite <- ?Hconcat; repeat split; try done; by rewrite Hconcat.
Qed.

(** X14. Outside init container mode, with a directory and a webhook
    given, a watcher created, an environment [initEnvMap] does not panic
    on, directories the watcher accepts and a path of the metrics for
    which [serverMetrics] can register its two patterns: the process does
    not sleep, walks every directory once, then adds every directory to
    the watcher, in the order of the flags, and then serves the metrics as
    [serverMetrics] does, at the address and the path of the flags; it
    exits, with code 1, only when [http.ListenAndServe] returns. *)
Theorem main_watches_and_serves (accepts : list string -> string -> bool) mux :
  runsAsInitContianer flags = false ->
  volumeDirs flags <> [] ->
  webhook flags <> [] ->
  NewWatcherErr w = None ->
  is_Some (initEnvMap flags w) ->
  (forall d, d ∈ volumeDirs flags -> WatcherAddErr w d = None) ->
  accepts mux (metricPath flags) = true ->
  accepts (mux ++ [metricPath flags]) "/" = true ->
  exists ts st' served,
    serverMetrics accepts w (listenAddress flags) (metricPath flags) mux
    = (Some (ListenAndServeErr w), served)
    /\ main flags w initState
       = (match ListenAndServeErr w with Some _ => Exit 1 | None => Continue end, st')
    /\ trace st'
       = [ANewWatcher; AGo] ++ concat ts
         ++ (volumeDirs flags ≫= fun d => [ALog "Watching directory: %q" [LStr d];
                                           AWatcherAdd d])
         ++ served
         ++ match ListenAndServeErr w with
            | Some err => [ALog "" [LErr (OsError err)]; AExit 1]
            | None => []
            end
    /\ Forall2 (fun d t =>
         exists n tail,
           t = ALog ("Pre config map updated" +:+ d) []
               :: (Walk (updateFile flags w) d (Lstat w n d)).2 ++ tail
           /\ Forall (fun a => isLog a = true) tail) (volumeDirs flags) ts
    /\ Forall (fun a => isLog a || isWrite a = true) (concat ts)
    /\ watches st' = volumeDirs flags
    /\ nwalk st' = length (volumeDirs flags)
    /\ nreq st' = 0%nat.
Proof.
  intros Hinit Hdirs Hhooks Hwatcher Henv Hadd Hmetrics Hroot.
  destruct (main_serves Hinit Hdirs Hhooks Hwatcher Henv Hadd)
    as (ts & st' & Hmain & Ht & Hrest).
  exists ts, st', [AListenAndServe (listenAddress flags) (metricPath flags)].
  split; [unfold serverMetrics; by rewrite Hmetrics, Hroot|].
  split; [exact Hmain|]. split; [exact Ht|exact Hrest].
Qed.

(** X15. Outside init container mode, when [watcher.Add] refuses a
    directory: the process exits with code 1 after the first pass over all
    the directories, with the directories before the refused one added to
    the watcher, and without serving the metrics. *)
Theorem main_exits_when_watch_refused before d after err :
  runsAsInitContianer flags = false ->
  volumeDirs flags = before ++ d :: after ->
  webhook flags <> [] ->
  NewWatcherErr w = None ->
  is_Some (initEnvMap flags w) ->
  (forall d', d' ∈ before -> WatcherAddErr w d' = None) ->
  WatcherAddErr w d = Some err ->
  exists st',
    main flags w initState = (Exit 1, st')
    /\ nwalk st' = length (volumeDirs flags)
    /\ watches st' = before
    /\ List.filter isServe (trace st') = []
    /\ List.filter isWatch (trace st') = (AWatcherAdd <$> before) ++ [AWatcherAdd d]
    /\ last (trace st') = Some (AExit 1).
Proof.
  intros Hinit Hdirs Hhooks Hwatcher Henv Hok Herr.
  rewrite main_first_pass; [|rewrite Hdirs; by destruct before|done..].
  set (st0 := emit [AGo] (emit [ANewWatcher] initState)).
  destruct (walkVolumes_once flags w "Pre config map updated" (volumeDirs flags) st0 Henv)
    as (ts & st1 & Hpass & _ & Hnwalk & _).
  destruct (walkVolumes_plain flags w "Pre config map updated" (volumeDirs flags) st0)
    as (t & Ht & Hplain & Hwatches & _).
  rewrite Hpass in Ht, Hwatches. cbn [snd] in Ht, Hwatches.
  destruct (plain_quiet t Hplain) as (Hs & Hw & _).
  rewrite Hpass. rewrite Hdirs.
  destruct (addWatches_refused before d after err st1 Hok Herr)
    as (st2 & -> & Ht2 & Hw2 & Hn2 & _).
  exists st2. split; [done|]. split; [by rewrite Hn2, Hnwalk, Hdirs|].
  split; [by rewrite Hw2, Hwatches|].
  rewrite Ht2, Ht. subst st0. cbn [trace emit initState app].
  assert (forall l : list string,
             List.filter isServe
               (l ≫= fun d => [ALog "Watching directory: %q" [LStr d]; AWatcherAdd d])
             = []
             /\ List.filter isWatch
                  (l ≫= fun d => [ALog "Watching directory: %q" [LStr d]; AWatcherAdd d])
                = AWatcherAdd <$> l) as Hloop.
  { induction l as [|x l [IH1 IH2]]; [done|].
    rewrite bind_cons, !List.filter_app, IH1, IH2. done. }
  destruct (Hloop before) as [Hb1 Hb2].
  split; [|split].
  - cbn [List.filter isServe]. by rewrite !List.filter_app, Hs, Hb1.
  - cbn [List.filter isWatch]. by rewrite !List.filter_app, Hw, Hb2.
  - by rewrite !last_cons, !last_app.
Qed.
End ServeFacts.

(** X16. The delay of the init container mode is multiplied by
    [time.Second] in 64 bits: from 9223372037 seconds on the product has
    wrapped around to a negative duration, and [time.Sleep] returns at
    once. *)
Theorem init_sleep_wraps_around n st :
  9223372037 <= n <= 18446744073 ->
  seconds n = n * Second - 2 ^ 64
  /\ seconds n < 0
  /\ now (Sleep (seconds n) st) = now st.
Proof.
  intros Hn.
  assert (seconds n = n * Second - 2 ^ 64) as E.
  { unfold seconds, wrap64, Second.
    replace (n * 1000000000 + 2 ^ 63)
      with ((n * 1000000000 - 2 ^ 63) + 1 * 2 ^ 64) by lia.
    rewrite Z.mod_add by lia. rewrite Z.mod_small; lia. }
  split; [exact E|]. rewrite E. unfold Second.
  split; [lia|]. cbn [now Sleep]. lia.
Qed.

Lemma main_watches_and_serves_witness :
  exists st',
    main flags1 wFoo initState = (Continue, st')
    /\ watches st' = ["/etc/config"]
    /\ List.filter isSleep (trace st') = [].
Proof.
  destruct (main_watches_and_serves flags1 wFoo muxAccepts ["/debug/vars"])
    as (ts & st' & served & _ & Hmain & Ht & Hts & Hplain & Hw & _).
  - reflexivity.
  - done.
  - done.
  - reflexivity.
  - vm_compute. by eexists.
  - intros d _. reflexivity.
  - vm_compute. reflexivity.
  - vm_compute. reflexivity.
  - exists st'. split; [exact Hmain|]. split; [exact Hw|].
    vm_compute in Hmain. injection Hmain as <-. vm_compute. reflexivity.
Defined.

Lemma init_sleep_wraps_around_witness :
  seconds 9223372037 = -9223372036709551616
  /\ now (Sleep (seconds 9223372037) initState) = 0.
Proof.
  destruct (init_sleep_wraps_around 9223372037 initState) as (E & _ & Hnow).
  - lia.
  - split; [rewrite E; reflexivity|exact Hnow].
Defined.

Lemma main_exits_when_watch_refused_witness :
  exists st',
    main flags1 wRefuse initState = (Exit 1, st') /\ watches st' = [].
Proof.
  destruct (main_exits_when_watch_refused flags1 wRefuse [] "/etc/config" []
              "no space left on device") as (st' & Hmain & _ & Hw & _).
  - reflexivity.
  - reflexivity.
  - done.
  - reflexivity.
  - by eexists.
  - intros d' Hd'. by apply elem_of_nil in Hd'.
  - reflexivity.
  - by exists st'.
Defined.

(** ** The series of the other webhooks *)

Lemma sameSeries_refl u m : sameSeries u m m.
Proof. by repeat split. Qed.

Lemma sameSeries_trans u m1 m2 m3 :
  sameSeries u m1 m2 -> sameSeries u m2 m3 -> sameSeries u m1 m3.
Proof.
  intros (A1 & A2 & A3 & A4 & A5) (B1 & B2 & B3 & B4 & B5).
  repeat split; intros; congruence.
Qed.

Lemma setFailureMetrics_other u h reason m :
  u <> h -> sameSeries u m (setFailureMetrics h reason m).
Proof.
  intros Hne. repeat split; simpl; try done.
  - by apply lookup_insert_ne.
  - intros r. unfold Inc. apply lookup_insert_ne. congruence.
Qed.

Lemma setSuccessMetrics_other u h since m :
  u <> h -> sameSeries u m (setSuccessMetrics h since m).
Proof.
  intros Hne. repeat split; simpl; try done.
  - by apply lookup_insert_ne.
  - by apply lookup_insert_ne.
  - unfold Inc. by apply lookup_insert_ne.
Qed.

Section FrameFacts.
Context `{GoLib}.
Variable flags : Flags.
Variable w : World.

Lemma countStatus_other u h code st :
  u <> URLString h -> sameSeries u (metrics st) (metrics (countStatus h code st)).
Proof.
  intros Hne. repeat split; simpl; try done.
  intros c. unfold Inc. apply lookup_insert_ne. congruence.
Qed.

Lemma retryLoop_other u fuel h req begun :
  u <> URLString h ->
  forall retries st ok st',
    retryLoop flags w fuel h req begun retries st = Some (ok, st') ->
    sameSeries u (metrics st) (metrics st')
    /\ watcherErrors (metrics st') = watcherErrors (metrics st).
Proof.
  intros Hne. induction fuel as [|fuel IH]; intros retries st ok st';
    cbn [retryLoop].
  - destruct (retries =? 0); [|done]. intros [= <- <-].
    split; [apply sameSeries_refl|done].
  - destruct (retries =? 0).
    { intros [= <- <-]. split; [apply sameSeries_refl|done]. }
    change (nreq (announce flags retries st)) with (nreq st).
    destruct (Do w (nreq st) req) as [t [err|code]].
    + intros Hrun. apply IH in Hrun as [Hs Hw]. split; [|exact Hw].
      eapply sameSeries_trans; [|exact Hs].
      apply (setFailureMetrics_other u (URLString h) "client_request_do"
               (metrics st) Hne).
    + destruct (negb (code =? webhookStatusCode flags)).
      * intros Hrun. apply IH in Hrun as [Hs Hw]. split; [|exact Hw].
        eapply sameSeries_trans; [|exact Hs].
        eapply sameSeries_trans;
          [apply (countStatus_other u h code
                    (sent req t (announce flags retries st)) Hne)|].
        apply (setFailureMetrics_other u (URLString h) "client_response" _ Hne).
      * intros [= <- <-]. split; [|done].
        eapply sameSeries_trans;
          [apply (countStatus_other u h code
                    (sent req t (announce flags retries st)) Hne)|].
        apply (setSuccessMetrics_other u (URLString h) _ _ Hne).
Qed.

(** X17. The work on the webhooks of an event changes only the series of
    these webhooks: for every other webhook label the gauges and the
    counters are what they were, and so is the counter of the watcher
    errors. *)
Theorem notifyAll_keeps_other_series u fuel hs st st' :
  u ∉ URLString <$> hs ->
  notifyAll flags w fuel hs st = Some st' ->
  sameSeries u (metrics st) (metrics st')
  /\ watcherErrors (metrics st') = watcherErrors (metrics st).
Proof.
  revert st. induction hs as [|h hs IH]; intros st Hnot; cbn [notifyAll].
  - intros [= <-]. split; [apply sameSeries_refl|done].
  - assert (u <> URLString h) as Hne.
    { intros ->. apply Hnot. rewrite fmap_cons. by left. }
    assert (u ∉ URLString <$> hs) as Hnot'.
    { intros Hin. apply Hnot. rewrite fmap_cons. by right. }
    unfold notify. destruct (webhookRequest flags h) as [err|req].
    + cbn [mbind option_bind]. intros Hrun.
      apply IH in Hrun as [Hs Hw]; [|done]. split; [|exact Hw].
      eapply sameSeries_trans; [|exact Hs].
      apply (setFailureMetrics_other u (URLString h) "client_request_create"
               (metrics st) Hne).
    + destruct (retryLoop flags w fuel h req (now st) (webhookRetries flags) st)
        as [[ok st1]|] eqn:Hloop; [|done].
      apply (retryLoop_other u fuel h req (now st) Hne) in Hloop as [Hs1 Hw1].
      cbn [mbind option_bind]. destruct ok; cbn [negb]; intros Hrun;
        apply IH in Hrun as [Hs Hw]; try done.
      * split; [|congruence]. by eapply sameSeries_trans.
      * split; [|by rewrite Hw]. eapply sameSeries_trans; [exact Hs1|].
        eapply sameSeries_trans; [|exact Hs].
        apply (setFailureMetrics_other u (URLString h) "retries_exhausted"
                 (metrics st1) Hne).
Qed.
End FrameFacts.

Lemma notifyAll_keeps_other_series_witness :
  exists st',
    notifyAll flags1 w200 1 [hook] initState = Some st'
    /\ lastReloadError (metrics st') !! "http://127.0.0.1:9091/-/reload" = None.
Proof.
  destruct (notifyAll flags1 w200 1 [hook] initState) as [st'|] eqn:Hrun;
    [|vm_compute in Hrun; discriminate].
  destruct (notifyAll_keeps_other_series flags1 w200 "http://127.0.0.1:9091/-/reload"
              1 [hook] initState st') as [(Hs & _) _].
  - intros Hin. apply list_elem_of_fmap in Hin as (h & E & Hh).
    apply list_elem_of_singleton in Hh as ->. discriminate.
  - exact Hrun.
  - exists st'. split; [done|]. rewrite Hs. reflexivity.
Defined.

(** ** Files that mention no variable *)

Lemma Index_nil s : GoBytes.Index s [] = Some 0%nat.
Proof. by destruct s. Qed.

Lemma replacedAll_same old s t : replacedAll old old s t -> t = s.
Proof. induction 1 as [|a b t _ _ IH]; [done|]. by rewrite IH. Qed.

Lemma spliceRunes_nil skip s : GoBytes.spliceRunes [] skip s = s.
Proof.
  revert skip. induction s as [|c s IH]; intros skip; [done|].
  destruct skip; simpl; by rewrite IH.
Qed.

Lemma Replace_same s old : GoBytes.Replace s old old = s.
Proof.
  destruct old as [|o old].
  - apply spliceRunes_nil.
  - apply (replacedAll_same (o :: old)). by apply Replace_replacedAll.
Qed.

Lemma Replace_absent s old new :
  GoBytes.Index s old = None -> GoBytes.Replace s old new = s.
Proof.
  destruct old as [|o old]; [by rewrite Index_nil|].
  apply replaceFrom_none.
Qed.

Section CopyFacts.
Context `{GoLib}.
Variable flags : Flags.
Variable w : World.

(** X18. A file that matches and can be read, and in which no name of
    the map occurs but names whose value is the name itself, is written
    as it was read. *)
Theorem updateFile_copies_unmentioned path name io envMap read :
  initEnvMap flags w = Some envMap ->
  Match (filePattern flags) name = Some true ->
  ReadFile io = inr read ->
  (forall k v, envMap !! k = Some v ->
     GoBytes.Index read (bytes_of k) = None \/ v = k) ->
  List.filter isWrite
    (updateFile flags w path (Some {| fiName := name; fiIsDir := false |})
                None io).2
  = [AWriteFile (Join (writeToPattern flags) name) read 438
                (WriteFile io (Join (writeToPattern flags) name) read)].
Proof.
  intros Henv Hm Hread Hnames.
  assert (substitute (rangeMap path envMap) read = read) as Hsub.
  { assert (Forall (fun kv => GoBytes.Index read (bytes_of kv.1) = None
                              \/ kv.2 = kv.1) (rangeMap path envMap)) as Hall.
    { apply Forall_forall. intros [k v] Hin. apply Hnames.
      rewrite rangeMap_perm in Hin. by apply elem_of_map_to_list in Hin. }
    unfold substitute. induction Hall as [|[k v] l [Hk|Hk] _ IH]; [done| |].
    - cbn [foldl fst snd]. by rewrite Replace_absent.
    - cbn [foldl fst snd]. simpl in Hk. subst v. by rewrite Replace_same. }
  unfold updateFile. rewrite Henv. cbn [fiIsDir fiName]. rewrite Hm, Hread.
  change (default false (Some true)) with true. cbv iota. rewrite Hsub.
  set (l0 := if bool_decide _ then _ else _).
  assert (List.filter isWrite l0 = []) as Hl0 by (subst l0; by case_bool_decide).
  destruct (WriteFile io _ _) as [e|]; cbn [snd];
    rewrite !List.filter_app, Hl0; reflexivity.
Qed.
End CopyFacts.

Lemma updateFile_copies_unmentioned_witness :
  List.filter isWrite
    (updateFile flags1 wFoo "/etc/config/b.yml"
       (Some {| fiName := "b.yml"; fiIsDir := false |}) None
       {| ReadFile := inr (bytes_of "b: 1"); WriteFile := fun _ _ => None |}).2
  = [AWriteFile "/etc/prometheus-updated/b.yml" (bytes_of "b: 1") 438 None].
Proof.
  rewrite (updateFile_copies_unmentioned flags1 wFoo "/etc/config/b.yml" "b.yml"
             {| ReadFile := inr (bytes_of "b: 1"); WriteFile := fun _ _ => None |}
             {["CFM_FOO" := "bar"]} (bytes_of "b: 1")).
  - reflexivity.
  - vm_compute. reflexivity.
  - reflexivity.
  - reflexivity.
  - intros k v Hk. apply lookup_singleton_Some in Hk as [<- <-].
    left. reflexivity.
Defined.

(** ** The last element of the name of an event *)

Lemma dropSeparators_slashes l rest :
  Forall (fun c => c = "/"%char) l ->
  Filepath.dropSeparators (l ++ rest) = Filepath.dropSeparators rest.
Proof.
  induction 1 as [|c l -> _ IH]; [done|].
  cbn [app Filepath.dropSeparators]. unfold Filepath.isPathSeparator.
  by rewrite bool_decide_eq_true_2.
Qed.

Lemma dropSeparators_element c rest :
  c <> "/"%char -> Filepath.dropSeparators (c :: rest) = c :: rest.
Proof.
  intros Hc. cbn [Filepath.dropSeparators]. unfold Filepath.isPathSeparator.
  by rewrite bool_decide_eq_false_2.
Qed.

Lemma takeElement_element l rest :
  Forall (fun c => c <> "/"%char) l ->
  Filepath.takeElement (l ++ "/"%char :: rest) = l.
Proof.
  induction 1 as [|c l Hc _ IH]; cbn [app Filepath.takeElement].
  - unfold Filepath.isPathSeparator. by rewrite bool_decide_eq_true_2.
  - unfold Filepath.isPathSeparator. rewrite bool_decide_eq_false_2 by done.
    by rewrite IH.
Qed.

Lemma Base_last_element dir name slashes :
  name <> "" ->
  Forall (fun c => c <> "/"%char) (String.list_ascii_of_string name) ->
  Forall (fun c => c = "/"%char) (String.list_ascii_of_string slashes) ->
  Filepath.Base (dir +:+ "/" +:+ name +:+ slashes) = name.
Proof.
  intros Hname Hn Hs. unfold Filepath.Base.
  rewrite bool_decide_eq_false_2 by (destruct dir; discriminate).
  cbv zeta. rewrite !list_ascii_of_string_app, !rev_app_distr.
  rewrite <- !app_assoc.
  rewrite dropSeparators_slashes by (by apply Forall_rev).
  change (String.list_ascii_of_string "/") with ["/"%char].
  cbn [rev app].
  destruct (rev (String.list_ascii_of_string name)) as [|c l] eqn:Hrev.
  { apply (f_equal (@length _)) in Hrev. rewrite length_rev in Hrev.
    destruct name; [done|discriminate]. }
  assert (Forall (fun c => c <> "/"%char) (c :: l)) as Hcl.
  { rewrite <- Hrev. by apply Forall_rev. }
  cbn [app]. rewrite dropSeparators_element by (by inversion Hcl).
  change (c :: l ++ "/"%char :: rev (String.list_ascii_of_string dir))
    with ((c :: l) ++ "/"%char :: rev (String.list_ascii_of_string dir)).
  rewrite takeElement_element by done.
  rewrite <- Hrev, rev_involutive.
  destruct (String.list_ascii_of_string name) as [|a l'] eqn:Hl.
  { destruct name; [done|discriminate]. }
  rewrite <- Hl. apply String.string_of_list_ascii_of_string.
Qed.

(** X19. For an event on a name that ends in a separator, a last element
    without separators and any number of trailing separators, the filter
    looks at the bit [Create] of the operations and at the last element
    only: the event passes exactly when the bit is set and the element
    is "..data". *)
Theorem isValidEvent_last_element dir name slashes op :
  name <> "" ->
  Forall (fun c => c <> "/"%char) (String.list_ascii_of_string name) ->
  Forall (fun c => c = "/"%char) (String.list_ascii_of_string slashes) ->
  isValidEvent {| Fsnotify.Name := dir +:+ "/" +:+ name +:+ slashes;
                  Fsnotify.Op := op |}
  = Z.testbit op 0 && bool_decide (name = "..data").
Proof.
  intros Hname Hn Hs. unfold isValidEvent. cbn [Fsnotify.Op Fsnotify.Name].
  rewrite Base_last_element by done.
  destruct (Z.testbit op 0) eqn:Hbit.
  - apply land_Create_testbit in Hbit. rewrite Hbit, Z.eqb_refl.
    by case_bool_decide.
  - destruct (Z.land op Fsnotify.Create =? Fsnotify.Create) eqn:E; [|done].
    apply Z.eqb_eq, land_Create_testbit in E. congruence.
Qed.

Lemma isValidEvent_last_element_witness :
  isValidEvent {| Fsnotify.Name := "/etc/config/..data/"; Fsnotify.Op := 3 |} = true
  /\ isValidEvent {| Fsnotify.Name := "/etc/config/..data_tmp"; Fsnotify.Op := 1 |}
     = false.
Proof.
  split.
  - apply (isValidEvent_last_element "/etc/config" "..data" "/" 3).
    + done.
    + repeat constructor; discriminate.
    + repeat constructor.
  - apply (isValidEvent_last_element "/etc/config" "..data_tmp" "" 1).
    + done.
    + repeat constructor; discriminate.
    + constructor.
Defined.

(** ** The flags that may be given several times *)

(** X20. The values of [-volume-dir] are collected in the order in which
    they are given, with repetitions, and [Set] never fails; the values
    of [-webhook-url] are collected in the same way as long as
    [url.Parse] accepts them, and the first one it refuses ends the
    parsing of the flags with an error that starts with "invalid URL: ",
    the URLs before it collected and the values after it not looked
    at. *)
Theorem setEach_collects (Parse : string -> string + URL) :
  (forall v values,
      setEach volumeDirsFlag_Set v values = (v ++ values, None))
  /\ (forall v values us,
        Forall2 (fun value u => Parse value = inr u) values us ->
        setEach (webhookFlag_Set Parse) v values = (v ++ us, None))
  /\ (forall v values us value err after,
        Forall2 (fun value u => Parse value = inr u) values us ->
        Parse value = inl err ->
        setEach (webhookFlag_Set Parse) v (values ++ value :: after)
        = (v ++ us, Some ("invalid URL: " +:+ err))).
Proof.
  split; [|split].
  - intros v values. revert v. induction values as [|x values IH]; intros v.
    + by rewrite app_nil_r.
    + cbn [setEach volumeDirsFlag_Set]. rewrite IH. by rewrite <- app_assoc.
  - intros v values us Hall. revert v.
    induction Hall as [|x u values us Hx _ IH]; intros v.
    + by rewrite app_nil_r.
    + cbn [setEach]. unfold webhookFlag_Set at 1. rewrite Hx, IH.
      by rewrite <- app_assoc.
  - intros v values us value err after Hall Herr. revert v.
    induction Hall as [|x u values us Hx _ IH]; intros v.
    + cbn [app setEach]. unfold webhookFlag_Set. rewrite Herr.
      by rewrite app_nil_r.
    + cbn [app setEach]. unfold webhookFlag_Set at 1. rewrite Hx, IH.
      by rewrite <- app_assoc.
Qed.

(** ** The metrics server *)

(** X21. On a [ServeMux] that refuses the empty pattern and a pattern it
    holds already, [serverMetrics] panics when the path of the metrics is
    empty or is "/", the pattern of the page it registers next to the
    metrics, and then [http.ListenAndServe] is not called; when both
    patterns are accepted it is called with the address, and what
    [serverMetrics] returns is its error. *)
Theorem serverMetrics_registers_two_patterns
    (accepts : list string -> string -> bool) w listenAddress metricsPath mux :
  (forall m, accepts m "" = false) ->
  (forall m pattern, pattern ∈ m -> accepts m pattern = false) ->
  (metricsPath = "" \/ metricsPath = "/" ->
   serverMetrics accepts w listenAddress metricsPath mux = (None, []))
  /\ (accepts mux metricsPath = true ->
      accepts (mux ++ [metricsPath]) "/" = true ->
      serverMetrics accepts w listenAddress metricsPath mux
      = (Some (ListenAndServeErr w), [AListenAndServe listenAddress metricsPath])).
Proof.
  intros Hempty Hheld. unfold serverMetrics. split.
  - intros [-> | ->].
    + by rewrite Hempty.
    + destruct (accepts mux "/"); [|done]. cbn [negb].
      rewrite Hheld; [done|]. apply elem_of_app. right. by left.
  - intros -> ->. done.
Qed.

Lemma serverMetrics_registers_two_patterns_witness :
  serverMetrics muxAccepts w200 ":9533" "/" [] = (None, [])
  /\ serverMetrics muxAccepts w200 ":9533" "/metrics" ["/debug/vars"]
     = (Some None, [AListenAndServe ":9533" "/metrics"]).
Proof.
  destruct (serverMetrics_registers_two_patterns muxAccepts w200 ":9533" "/" [])
    as [Hpanic _].
  - intros m. reflexivity.
  - intros m pattern Hin. unfold muxAccepts.
    rewrite (bool_decide_eq_true_2 (pattern ∈ m)) by done.
    by rewrite andb_false_r.
  - destruct (serverMetrics_registers_two_patterns muxAccepts w200 ":9533"
                "/metrics" ["/debug/vars"]) as [_ Hserve].
    + intros m. reflexivity.
    + intros m pattern Hin. unfold muxAccepts.
      rewrite (bool_decide_eq_true_2 (pattern ∈ m)) by done.
      by rewrite andb_false_r.
    + split; [apply Hpanic; by right|]. apply Hserve; vm_compute; reflexivity.
Defined.

(** ** The time a webhook that fails takes *)

Section ExhaustedFacts.
Context `{GoLib}.
Variable flags : Flags.
Variable w : World.

Lemma failedRound_gauges h req retries st :
  requestDuration (metrics (failedRound flags w h req retries st))
  = requestDuration (metrics st)
  /\ successReloads (metrics (failedRound flags w h req retries st))
     = successReloads (metrics st)
  /\ now (failedRound flags w h req retries st)
     = now st + (Do w (nreq st) req).1 + Second * 10.
Proof.
  unfold failedRound.
  change (nreq (announce flags retries st)) with (nreq st).
  by destruct (Do w (nreq st) req) as [t [err|code]].
Qed.

Lemma retryLoop_never_success_time h req begun fuel :
  forall retries st,
    inInt retries ->
    rounds retries <= Z.of_nat fuel ->
    (forall i, (nreq st <= i)%nat -> succeeds flags w req i = false) ->
    exists st',
      retryLoop flags w fuel h req begun retries st = Some (false, st')
      /\ now st'
         = now st + took w req (nreq st) (Z.to_nat (rounds retries))
           + rounds retries * (Second * 10)
      /\ requestDuration (metrics st') = requestDuration (metrics st)
      /\ successReloads (metrics st') = successReloads (metrics st).
Proof.
  induction fuel as [|fuel IH]; intros retries st Hr Hfuel Hfail.
  - pose proof (rounds_bound retries).
    assert (retries = 0) as -> by (apply rounds_zero; [done|lia]).
    exists st. change (rounds 0) with 0. simpl. repeat split; lia.
  - destruct (decide (retries = 0)) as [->|Hne].
    { exists st. change (rounds 0) with 0. simpl. repeat split; lia. }
    rewrite retryLoop_failed by (try done; apply Hfail; lia).
    pose proof (rounds_pred retries Hr Hne) as Hp.
    pose proof (rounds_bound (wrap64 (retries - 1))) as Hb.
    destruct (failedRound_gauges h req retries st) as (Hd & Hs & Hnow).
    destruct (IH (wrap64 (retries - 1)) (failedRound flags w h req retries st))
      as (st' & -> & Hnow' & Hd' & Hs').
    { apply wrap64_range. }
    { lia. }
    { intros i Hi. rewrite failedRound_nreq in Hi. apply Hfail. lia. }
    exists st'. split; [done|]. split; [|split; congruence].
    rewrite Hnow', Hnow, failedRound_nreq, Hp.
    replace (Z.to_nat (rounds retries))
      with (S (Z.to_nat (rounds retries - 1))) by lia.
    cbn [took]. ring.
Qed.

(** X22. When no request for a webhook is answered with the expected
    status code, with a retry count n that is not negative and fuel for
    it: the work on the webhook takes the time of the n requests and n
    times ten seconds of sleep, the last sleep after the last request,
    before the next webhook is worked on; the gauge of the last reload
    error is 1, and the gauge of the duration and the counter of the
    successful reloads are left as they were. *)
Theorem notify_exhausted_takes_all_sleeps h req st fuel :
  webhookRequest flags h = inr req ->
  0 <= webhookRetries flags < 2 ^ 63 ->
  webhookRetries flags <= Z.of_nat fuel ->
  (forall i, (nreq st <= i)%nat -> succeeds flags w req i = false) ->
  exists st',
    notify flags w fuel h st = Some st'
    /\ now st'
       = now st + took w req (nreq st) (Z.to_nat (webhookRetries flags))
         + webhookRetries flags * (Second * 10)
    /\ lastReloadError (metrics st') !! URLString h = Some 1
    /\ requestDuration (metrics st') = requestDuration (metrics st)
    /\ successReloads (metrics st') = successReloads (metrics st).
Proof.
  intros Hreq Hr Hfuel Hfail.
  destruct (retryLoop_never_success_time h req (now st) fuel
              (webhookRetries flags) st) as (st1 & Hloop & Hnow & Hd & Hs).
  { unfold inInt. lia. }
  { by rewrite rounds_nonneg. }
  { done. }
  rewrite rounds_nonneg in Hnow by done.
  exists (exhausted h st1).
  split; [unfold notify; by rewrite Hreq, Hloop|].
  split; [exact Hnow|]. split; [simpl; by rewrite lookup_insert_eq|]. done.
Qed.
End ExhaustedFacts.

Lemma notify_exhausted_takes_all_sleeps_witness :
  exists st',
    notify flags3 w500 3 hook initState = Some st' /\ now st' = 30003000000.
Proof.
  destruct (notify_exhausted_takes_all_sleeps flags3 w500 hook
              {| Method := "POST"; ReqURL := URLString hook; Header := ∅ |}
              initState 3) as (st' & Hrun & Hnow & _).
  - reflexivity.
  - vm_compute. split; [discriminate|reflexivity].
  - vm_compute. discriminate.
  - intros i _. reflexivity.
  - exists st'. split; [exact Hrun|]. rewrite Hnow. reflexivity.
Defined.
